(** * KrishiSahay AI search engine: a shallow embedding of [ai_search_engine.py]

    The development follows the pipeline of [AISearchEngine.search]:
    [_preprocess_query], [_extract_intent], [_expand_query],
    [_search_knowledge_base] with [_calculate_relevance], [_rank_results],
    [_apply_context], [_update_search_history] and [_generate_suggestions].

    Modelling conventions.
    - A Python [str] is a Rocq [string]; the embedding covers the code points
      U+0000..U+00FF, one [ascii] value per code point.  The character tables
      ([str.lower], [str.isspace], the [re] classes [\w] and [\s]) are the
      ones CPython uses on that range.
    - A Python [float] score is an exact rational ([Q]).  Every comparison the
      program makes on scores ([score > 0], the ordering used by [sorted])
      is made on [Q]; rounding is not modelled.
    - Exceptions are values of [exn], threaded by the [result] monad; the
      engine's attributes and the wall clock are threaded by explicit state
      passing. *)

From Stdlib Require Import Bool Arith List Lia ZArith NArith QArith.
From Stdlib Require Import Ascii String Sorting.Permutation Sorting.Sorted.
From Stdlib Require Import Numbers.DecimalString.
From Stdlib Require Import Lqa.
Import ListNotations.

Close Scope Q_scope.
Open Scope string_scope.
Open Scope list_scope.
Open Scope nat_scope.

(** ** Python strings *)

Module PyStr.

Definition code (c : ascii) : N := N_of_ascii c.

Definition between (lo hi : N) (c : ascii) : bool :=
  ((lo <=? code c) && (code c <=? hi))%N.

(** [str.isspace] on one character, which is also the [re] class [\s]. *)
Definition is_space (c : ascii) : bool :=
  between 9 13 c || between 28 32 c || (code c =? 133)%N || (code c =? 160)%N.

(** The [re] class [\w]: alphanumeric characters and the underscore. *)
Definition is_word (c : ascii) : bool :=
  between 48 57 c || between 65 90 c || (code c =? 95)%N || between 97 122 c
  || (code c =? 170)%N || between 178 179 c || (code c =? 181)%N
  || between 185 186 c || between 188 190 c || between 192 214 c
  || between 216 246 c || between 248 255 c.

(** The characters that [str.lower] changes: each is mapped 32 code points
    up. *)
Definition is_upper (c : ascii) : bool :=
  between 65 90 c || between 192 214 c || between 216 222 c.

Definition lower_char (c : ascii) : ascii :=
  if is_upper c then ascii_of_N (code c + 32) else c.

(** [s.lower()] *)
Fixpoint lower (s : string) : string :=
  match s with
  | EmptyString => EmptyString
  | String c s' => String (lower_char c) (lower s')
  end.

Fixpoint lstrip (s : string) : string :=
  match s with
  | EmptyString => EmptyString
  | String c s' => if is_space c then lstrip s' else s
  end.

Fixpoint rstrip (s : string) : string :=
  match s with
  | EmptyString => EmptyString
  | String c s' =>
      match rstrip s' with
      | EmptyString => if is_space c then EmptyString else String c EmptyString
      | r => String c r
      end
  end.

(** [s.strip()] *)
Definition strip (s : string) : string := rstrip (lstrip s).

(** [needle in hay] *)
Fixpoint contains (needle hay : string) : bool :=
  String.prefix needle hay ||
  match hay with
  | EmptyString => false
  | String _ hay' => contains needle hay'
  end.

(** [s.split()]: the maximal runs of non-whitespace characters.  [cur] is
    the run being read, [None] between two runs. *)
Fixpoint split_from (cur : option string) (s : string) : list string :=
  match s with
  | EmptyString => match cur with Some w => [w] | None => [] end
  | String c s' =>
      if is_space c
      then match cur with
           | Some w => w :: split_from None s'
           | None => split_from None s'
           end
      else match cur with
           | Some w => split_from (Some (w ++ String c EmptyString)%string) s'
           | None => split_from (Some (String c EmptyString)) s'
           end
  end.

Definition split (s : string) : list string := split_from None s.

(** [s.split(sep)[0]] for a one-character separator: the text before the
    first [sep], the whole of [s] when there is none. *)
Fixpoint before_first (sep : ascii) (s : string) : string :=
  match s with
  | EmptyString => EmptyString
  | String c s' =>
      if Ascii.eqb c sep then EmptyString else String c (before_first sep s')
  end.

(** [s.replace(old, new)] for a non-empty [old]: occurrences are replaced
    left to right without overlap.  [skip] counts the characters of the
    occurrence just replaced that are still to be passed over. *)
Fixpoint replace_from (old new : string) (skip : nat) (s : string) : string :=
  match s with
  | EmptyString => EmptyString
  | String c s' =>
      match skip with
      | S k => replace_from old new k s'
      | O =>
          if String.prefix old s
          then (new ++ replace_from old new (String.length old - 1) s')%string
          else String c (replace_from old new 0 s')
      end
  end.

(** With an empty [old], Python inserts [new] before every character and
    at the end. *)
Fixpoint intersperse (new s : string) : string :=
  match s with
  | EmptyString => new
  | String c s' => (new ++ String c (intersperse new s'))%string
  end.

Definition replace (old new s : string) : string :=
  match old with
  | EmptyString => intersperse new s
  | _ => replace_from old new 0 s
  end.

Definition chars (s : string) : list string :=
  map (fun c => String c EmptyString) (list_ascii_of_string s).

(** [s[:n]] *)
Definition take (n : nat) (s : string) : string := String.substring 0 n s.

Definition mem (x : string) (l : list string) : bool :=
  existsb (String.eqb x) l.

(** The elements of [l] in order of first occurrence, each once. *)
Fixpoint dedup (l : list string) : list string :=
  match l with
  | [] => []
  | x :: l' => x :: filter (fun y => negb (String.eqb x y)) (dedup l')
  end.

End PyStr.

(** ** Regular expressions of the intent patterns

    The patterns of [_load_query_patterns] are built from literal words,
    alternation, concatenation, the assertion [\b] and [.*]; [re.search] is
    called with [re.IGNORECASE] and without [re.DOTALL]. *)

Module Re.

Inductive regex : Type :=
| Lit (s : string)
| Alt (r1 r2 : regex)
| Seq (r1 r2 : regex)
| WordB
| DotStar.

(** A continuation receives the character just before the position reached
    ([None] at the start of the text) and the text that is left. *)
Definition cont : Type := option ascii -> string -> bool.

Definition same_char_ci (a c : ascii) : bool :=
  Ascii.eqb (PyStr.lower_char a) (PyStr.lower_char c).

Definition word_before (prev : option ascii) : bool :=
  match prev with Some c => PyStr.is_word c | None => false end.

Definition word_at (s : string) : bool :=
  match s with String c _ => PyStr.is_word c | EmptyString => false end.

Definition newline : ascii := ascii_of_N 10.

Fixpoint lit (l : string) (prev : option ascii) (s : string) (k : cont) : bool :=
  match l with
  | EmptyString => k prev s
  | String a l' =>
      match s with
      | EmptyString => false
      | String c s' => if same_char_ci a c then lit l' (Some c) s' k else false
      end
  end.

Fixpoint dotstar (prev : option ascii) (s : string) (k : cont) : bool :=
  match s with
  | EmptyString => k prev s
  | String c s' =>
      (if Ascii.eqb c newline then false else dotstar (Some c) s' k) || k prev s
  end.

Fixpoint matches (r : regex) (prev : option ascii) (s : string) (k : cont) : bool :=
  match r with
  | Lit l => lit l prev s k
  | Alt r1 r2 => matches r1 prev s k || matches r2 prev s k
  | Seq r1 r2 => matches r1 prev s (fun p t => matches r2 p t k)
  | WordB => if xorb (word_before prev) (word_at s) then k prev s else false
  | DotStar => dotstar prev s k
  end.

Fixpoint search_from (r : regex) (prev : option ascii) (s : string) : bool :=
  matches r prev s (fun _ _ => true) ||
  match s with
  | EmptyString => false
  | String c s' => search_from r (Some c) s'
  end.

(** [re.search(r, s, re.IGNORECASE)] is not [None] *)
Definition search (r : regex) (s : string) : bool := search_from r None s.

(** [(w|w1|...|wn)] *)
Fixpoint one_of (w : string) (ws : list string) : regex :=
  match ws with
  | [] => Lit w
  | w' :: ws' => Alt (Lit w) (one_of w' ws')
  end.

(** [\b(g1)\b.*\b(g2)\b], the shape of all ten patterns. *)
Definition two_groups (g1 g2 : regex) : regex :=
  Seq WordB (Seq g1 (Seq WordB (Seq DotStar (Seq WordB (Seq g2 WordB))))).

End Re.

(** ** [difflib.SequenceMatcher(None, a, b).ratio()]

    The matcher is created with [isjunk=None] and the default
    [autojunk=True]: no element is junk, and when [b] has 200 elements or
    more the elements occurring more than [len(b) // 100 + 1] times are left
    out of [b2j]. *)

Module Difflib.

Section Matcher.

Variables a b : list ascii.

Fixpoint indices_from (j : nat) (l : list ascii) (c : ascii) : list nat :=
  match l with
  | [] => []
  | x :: l' =>
      if Ascii.eqb x c then j :: indices_from (S j) l' c
      else indices_from (S j) l' c
  end.

Definition popular (c : ascii) : bool :=
  (200 <=? List.length b) && (List.length b / 100 + 1 <? List.length (indices_from 0 b c)).

(** [b2j.get(c, [])] after [__chain_b] *)
Definition b2j (c : ascii) : list nat :=
  if popular c then [] else indices_from 0 b c.

Definition same_elt (x y : option ascii) : bool :=
  match x, y with
  | Some c, Some d => Ascii.eqb c d
  | _, _ => false
  end.

(** [j2len.get(j, 0)] *)
Fixpoint get (j : nat) (j2len : list (nat * nat)) : nat :=
  match j2len with
  | [] => 0
  | (j', k) :: rest => if j' =? j then k else get j rest
  end.

Record best : Type := Best { besti : nat; bestj : nat; bestsize : nat }.

(** The inner loop of [find_longest_match] over [b2j.get(a[i], nothing)];
    [j2len.get(j-1, 0)] is [0] when [j] is [0]. *)
Fixpoint row (blo bhi i : nat) (j2len : list (nat * nat)) (js : list nat)
    (newj2len : list (nat * nat)) (bst : best) : list (nat * nat) * best :=
  match js with
  | [] => (newj2len, bst)
  | j :: js' =>
      if j <? blo then row blo bhi i j2len js' newj2len bst
      else if bhi <=? j then (newj2len, bst)
      else
        let k := match j with O => 0 | S j' => get j' j2len end + 1 in
        row blo bhi i j2len js' ((j, k) :: newj2len)
          (if bestsize bst <? k then Best (i + 1 - k) (j + 1 - k) k else bst)
  end.

(** The loop [for i in range(alo, ahi)], over the list of its indices. *)
Fixpoint rows (blo bhi : nat) (is_ : list nat) (j2len : list (nat * nat))
    (bst : best) : best :=
  match is_ with
  | [] => bst
  | i :: is' =>
      let js := match nth_error a i with Some c => b2j c | None => [] end in
      let '(newj2len, bst') := row blo bhi i j2len js [] bst in
      rows blo bhi is' newj2len bst'
  end.

(** First [while]: extend the match to the left. *)
Fixpoint extend_left (alo blo i j k : nat) {struct i} : best :=
  match i, j with
  | S i', S j' =>
      if (alo <? i) && (blo <? j) && same_elt (nth_error a i') (nth_error b j')
      then extend_left alo blo i' j' (S k)
      else Best i j k
  | _, _ => Best i j k
  end.

(** Second [while]: extend the match to the right; it runs at most
    [ahi - (besti + bestsize)] times, which is the fuel given to it. *)
Fixpoint extend_right (fuel ahi bhi i j k : nat) : best :=
  match fuel with
  | O => Best i j k
  | S fuel' =>
      if (i + k <? ahi) && (j + k <? bhi)
         && same_elt (nth_error a (i + k)) (nth_error b (j + k))
      then extend_right fuel' ahi bhi i j (S k)
      else Best i j k
  end.

(** The two last [while] loops of [find_longest_match] extend over junk
    elements only; [bjunk] is empty here, so they do nothing. *)
Definition find_longest_match (alo ahi blo bhi : nat) : best :=
  let m := rows blo bhi (seq alo (ahi - alo)) [] (Best alo blo 0) in
  let m := extend_left alo blo (besti m) (bestj m) (bestsize m) in
  extend_right (ahi - (besti m + bestsize m)) ahi bhi
    (besti m) (bestj m) (bestsize m).

(** The sum of the sizes of the blocks [get_matching_blocks] collects.
    Every recursive call is on a strictly shorter range of [a]. *)
Fixpoint matched (fuel alo ahi blo bhi : nat) : nat :=
  match fuel with
  | O => 0
  | S fuel' =>
      let m := find_longest_match alo ahi blo bhi in
      let i := besti m in
      let j := bestj m in
      let k := bestsize m in
      if k =? 0 then 0
      else
        k
        + (if (alo <? i) && (blo <? j) then matched fuel' alo i blo j else 0)
        + (if (i + k <? ahi) && (j + k <? bhi)
           then matched fuel' (i + k) ahi (j + k) bhi else 0)
  end.

Definition matches : nat :=
  matched (S (List.length a)) 0 (List.length a) 0 (List.length b).

End Matcher.

(** [_calculate_ratio(matches, length)] *)
Definition calculate_ratio (m length : nat) : Q :=
  match length with
  | O => 1%Q
  | S _ => (inject_Z (2 * Z.of_nat m) / inject_Z (Z.of_nat length))%Q
  end.

Definition ratio (a b : string) : Q :=
  let la := list_ascii_of_string a in
  let lb := list_ascii_of_string b in
  calculate_ratio (matches la lb) (List.length la + List.length lb).

End Difflib.

(** ** Exceptions *)

Inductive exn : Type := TypeError | AttributeError.

Inductive result (A : Type) : Type :=
| Ok (a : A)
| Raise (e : exn).

Arguments Ok {A} a.
Arguments Raise {A} e.

Definition bind {A B : Type} (m : result A) (f : A -> result B) : result B :=
  match m with
  | Ok a => f a
  | Raise e => Raise e
  end.

Notation "x <- m ;; k" := (bind m (fun x => k))
  (at level 61, m at next level, right associativity).

(** ** Knowledge entries

    The knowledge mapping is an untyped Python [dict].  A field of an entry
    is a scalar or a flat list of scalars; the data of an entry is a [dict]
    of fields or some other value.  Keys of the mapping and of an entry's
    [dict] are strings; the mapping is kept in its iteration order. *)

Inductive scalar : Type :=
| SNone
| SInt (z : Z)
| SStr (s : string).

Inductive value : Type :=
| VScalar (x : scalar)
| VList (l : list scalar).

Inductive entry_data : Type :=
| Dict (fields : list (string * value))
| NotDict (v : value).

Definition KnowledgeBase : Type := list (string * entry_data).

(** [d.get(k)] on a [dict] with string keys: [None] when [k in d] is false,
    [Some d[k]] otherwise. *)
Fixpoint lookup {V : Type} (k : string) (d : list (string * V)) : option V :=
  match d with
  | [] => None
  | (k', v) :: d' => if String.eqb k' k then Some v else lookup k d'
  end.

(** [for x in v] *)
Definition iterate (v : value) : result (list scalar) :=
  match v with
  | VList l => Ok l
  | VScalar (SStr s) => Ok (map SStr (PyStr.chars s))
  | VScalar _ => Raise TypeError
  end.

(** [x in query], for a string [query] *)
Definition scalar_in (x : scalar) (query : string) : result bool :=
  match x with
  | SStr s => Ok (PyStr.contains s query)
  | _ => Raise TypeError
  end.

Definition value_in (v : value) (query : string) : result bool :=
  match v with
  | VScalar x => scalar_in x query
  | VList _ => Raise TypeError
  end.

(** [v.lower()] *)
Definition value_lower (v : value) : result string :=
  match v with
  | VScalar (SStr s) => Ok (PyStr.lower s)
  | _ => Raise AttributeError
  end.

(** [v[:n]] *)
Definition value_take (n : nat) (v : value) : result value :=
  match v with
  | VList l => Ok (VList (firstn n l))
  | VScalar (SStr s) => Ok (VScalar (SStr (PyStr.take n s)))
  | VScalar _ => Raise TypeError
  end.

(** [bool(v)] *)
Definition truthy (v : value) : bool :=
  match v with
  | VScalar SNone => false
  | VScalar (SInt z) => negb (z =? 0)%Z
  | VScalar (SStr s) => negb (String.eqb s "")
  | VList l => match l with [] => false | _ => true end
  end.

(** [str(x)], as an f-string formats it *)
Definition scalar_str (x : scalar) : string :=
  match x with
  | SNone => "None"
  | SInt z => NilZero.string_of_int (Z.to_int z)
  | SStr s => s
  end.

(** [v == s] for a string [s] *)
Definition value_eq_str (v : option value) (s : string) : bool :=
  match v with
  | Some (VScalar (SStr c)) => String.eqb c s
  | _ => false
  end.

(** ** Scores *)

Definition Qltb (x y : Q) : bool := negb (Qle_bool y x).

Definition Q_of_nat (n : nat) : Q := inject_Z (Z.of_nat n).

(** ** Static tables of the engine *)

Definition query_patterns : list (string * list Re.regex) :=
  [ ("pest_control",
      [ Re.two_groups
          (Re.one_of "control" ["kill"; "remove"; "eliminate"; "manage"])
          (Re.one_of "pest" ["insect"; "bug"; "aphid"; "whitefly"]);
        Re.two_groups
          (Re.one_of "aphid" ["whitefly"; "thrips"; "mite"; "borer"; "caterpillar"])
          (Re.one_of "control" ["treatment"; "solution"]) ]);
    ("disease_management",
      [ Re.two_groups
          (Re.one_of "disease" ["infection"; "fungus"; "virus"; "bacterial"])
          (Re.one_of "treatment" ["cure"; "control"]);
        Re.two_groups
          (Re.one_of "blight" ["spot"; "rot"; "wilt"; "mildew"])
          (Re.one_of "manage" ["treat"; "prevent"]) ]);
    ("fertilizer",
      [ Re.two_groups
          (Re.one_of "fertilizer" ["nutrient"; "npk"; "urea"; "dap"])
          (Re.one_of "apply" ["use"; "recommend"]);
        Re.two_groups
          (Re.one_of "nitrogen" ["phosphorus"; "potassium"])
          (Re.one_of "deficiency" ["requirement"]) ]);
    ("crop_management",
      [ Re.two_groups
          (Re.one_of "grow" ["cultivate"; "plant"])
          (Re.one_of "crop" ["vegetable"; "grain"]);
        Re.two_groups
          (Re.one_of "irrigation" ["watering"; "drainage"])
          (Re.one_of "method" ["system"; "schedule"]) ]);
    ("government_schemes",
      [ Re.two_groups
          (Re.one_of "scheme" ["subsidy"; "loan"; "insurance"; "policy"])
          (Re.one_of "farmer" ["agriculture"]);
        Re.two_groups
          (Re.one_of "pm kisan" ["pradhan mantri"; "government"])
          (Re.one_of "benefit" ["apply"; "register"]) ]) ].

Definition synonyms : list (string * list string) :=
  [ ("pest", ["insect"; "bug"; "parasite"; "infestation"]);
    ("disease", ["infection"; "sickness"; "ailment"; "disorder"]);
    ("fertilizer", ["nutrient"; "manure"; "compost"; "feed"]);
    ("crop", ["plant"; "vegetation"; "produce"; "harvest"]);
    ("control", ["manage"; "eliminate"; "remove"; "treat"]);
    ("organic", ["natural"; "bio"; "eco-friendly"; "chemical-free"]);
    ("yield", ["production"; "output"; "harvest"; "productivity"]) ].

Definition action_verbs : list string :=
  ["control"; "treat"; "prevent"; "apply"; "use"; "grow"; "plant"; "harvest"].

(** ** [_preprocess_query] *)

(** [re.sub(r'\s+', ' ', s)]; [in_run] tells that the previous character was
    whitespace, already replaced. *)
Fixpoint collapse_whitespace (in_run : bool) (s : string) : string :=
  match s with
  | EmptyString => EmptyString
  | String c s' =>
      if PyStr.is_space c
      then if in_run then collapse_whitespace true s'
           else String " "%char (collapse_whitespace true s')
      else String c (collapse_whitespace false s')
  end.

Definition kept (c : ascii) : bool :=
  PyStr.is_word c || PyStr.is_space c || Ascii.eqb c "-"%char || Ascii.eqb c "?"%char.

(** [re.sub(r'[^\w\s\-\?]', '', s)] *)
Fixpoint remove_special (s : string) : string :=
  match s with
  | EmptyString => EmptyString
  | String c s' => if kept c then String c (remove_special s') else remove_special s'
  end.

Definition _preprocess_query (query : string) : string :=
  let query := PyStr.strip (PyStr.lower query) in
  let query := collapse_whitespace false query in
  remove_special query.

(** ** [_extract_intent] *)

Record Intent : Type := mkIntent {
  intent_type : string;
  intent_action : option string;
  intent_subject : option string;
  intent_confidence : Q
}.

Fixpoint scan_patterns (intent_type : string) (patterns : list Re.regex)
    (query : string) (intent : Intent) : Intent :=
  match patterns with
  | [] => intent
  | pattern :: patterns' =>
      if Re.search pattern query
      then mkIntent intent_type (intent_action intent) (intent_subject intent) (9 # 10)
      else scan_patterns intent_type patterns' query intent
  end.

Fixpoint scan_groups (groups : list (string * list Re.regex)) (query : string)
    (intent : Intent) : Intent :=
  match groups with
  | [] => intent
  | (intent_type, patterns) :: groups' =>
      let intent := scan_patterns intent_type patterns query intent in
      if Qltb 0 (intent_confidence intent) then intent
      else scan_groups groups' query intent
  end.

Fixpoint first_verb (verbs : list string) (query : string) : option string :=
  match verbs with
  | [] => None
  | verb :: verbs' =>
      if PyStr.contains verb query then Some verb else first_verb verbs' query
  end.

Definition _extract_intent (query : string) : Intent :=
  let intent := mkIntent "general" None None 0 in
  let intent := scan_groups query_patterns query intent in
  match first_verb action_verbs query with
  | Some verb =>
      mkIntent (intent_type intent) (Some verb) (intent_subject intent)
        (intent_confidence intent)
  | None => intent
  end.

(** ** [_expand_query] *)

Definition _expand_query (query : string) : list string :=
  query ::
  flat_map
    (fun word =>
       match lookup word synonyms with
       | Some syns => map (fun synonym => PyStr.replace word synonym query) syns
       | None => []
       end)
    (PyStr.split query).

(** ** [_calculate_relevance] *)

(** The loops [for x in items: if x in query: score += weight]. *)
Fixpoint add_matches (weight : Q) (query : string) (items : list scalar)
    (score : Q) : result Q :=
  match items with
  | [] => Ok score
  | x :: items' =>
      hit <- scalar_in x query ;;
      add_matches weight query items' (if hit then score + weight else score)%Q
  end.

(** [set(solution_words) & set(query_words)] *)
Definition common_words (solution_words query_words : list string) : list string :=
  filter (fun w => PyStr.mem w query_words) (PyStr.dedup solution_words).

(** The part of the score that reads the key only. *)
Definition key_score (query key : string) : Q :=
  let score := 0%Q in
  let score := if PyStr.contains key query then (score + 10)%Q else score in
  let score :=
    if existsb (fun word => PyStr.contains word query) (PyStr.split key)
    then (score + 5)%Q else score in
  let similarity := Difflib.ratio query key in
  (score + similarity * 3)%Q.

Definition crops_score (query : string) (data : list (string * value))
    (score : Q) : result Q :=
  match lookup "crops" data with
  | Some crops => items <- iterate crops ;; add_matches 4 query items score
  | None => Ok score
  end.

Definition category_score (query : string) (data : list (string * value))
    (score : Q) : result Q :=
  match lookup "category" data with
  | Some category =>
      hit <- value_in category query ;;
      Ok (if hit then score + 3 else score)%Q
  | None => Ok score
  end.

Definition symptoms_score (query : string) (data : list (string * value))
    (score : Q) : result Q :=
  match lookup "symptoms" data with
  | Some symptoms => items <- iterate symptoms ;; add_matches 2 query items score
  | None => Ok score
  end.

Definition solution_score (query : string) (data : list (string * value))
    (score : Q) : result Q :=
  match lookup "solution" data with
  | Some solution =>
      lowered <- value_lower solution ;;
      let solution_words := PyStr.split lowered in
      let query_words := PyStr.split query in
      let common := common_words solution_words query_words in
      Ok (score + Q_of_nat (List.length common) * (1 # 2))%Q
  | None => Ok score
  end.

Definition _calculate_relevance (query key : string) (data : entry_data)
    : result Q :=
  let score := key_score query key in
  match data with
  | Dict fields =>
      score <- crops_score query fields score ;;
      score <- category_score query fields score ;;
      score <- symptoms_score query fields score ;;
      solution_score query fields score
  | NotDict _ => Ok score
  end.

(** ** [_search_knowledge_base] *)

Record SearchResult : Type := mkResult {
  key : string;
  data : entry_data;
  score : Q;
  matched_query : string
}.

(** The inner loop over [knowledge_base.items()]; [results] and [seen_keys]
    are the two accumulators of the method. *)
Fixpoint scan_entries (query : string) (entries : KnowledgeBase)
    (results : list SearchResult) (seen_keys : list string)
    : result (list SearchResult * list string) :=
  match entries with
  | [] => Ok (results, seen_keys)
  | (k, d) :: entries' =>
      if PyStr.mem k seen_keys then scan_entries query entries' results seen_keys
      else
        s <- _calculate_relevance query k d ;;
        if Qltb 0 s
        then scan_entries query entries' (results ++ [mkResult k d s query])
               (k :: seen_keys)
        else scan_entries query entries' results seen_keys
  end.

Fixpoint scan_queries (queries : list string) (knowledge_base : KnowledgeBase)
    (results : list SearchResult) (seen_keys : list string)
    : result (list SearchResult) :=
  match queries with
  | [] => Ok results
  | query :: queries' =>
      acc <- scan_entries query knowledge_base results seen_keys ;;
      scan_queries queries' knowledge_base (fst acc) (snd acc)
  end.

Definition _search_knowledge_base (queries : list string)
    (knowledge_base : KnowledgeBase) : result (list SearchResult) :=
  scan_queries queries knowledge_base [] [].

(** ** [_rank_results] *)

(** [sorted(results, key=lambda x: x['score'], reverse=True)]: a stable sort,
    results of equal score keep their order. *)
Fixpoint insert_desc (x : SearchResult) (l : list SearchResult) : list SearchResult :=
  match l with
  | [] => [x]
  | y :: l' =>
      if Qle_bool (score y) (score x) then x :: l else y :: insert_desc x l'
  end.

Definition sorted_desc (l : list SearchResult) : list SearchResult :=
  fold_right insert_desc [] l.

Definition with_score (r : SearchResult) (s : Q) : SearchResult :=
  mkResult (key r) (data r) s (matched_query r).

(** One turn of the boosting loop: [result['data'].get('category')] needs a
    [dict]. *)
Definition boost (prefix : string) (r : SearchResult) : result SearchResult :=
  match data r with
  | Dict fields =>
      if value_eq_str (lookup "category" fields) prefix
      then Ok (with_score r (score r * (12 # 10)))
      else Ok r
  | NotDict _ => Raise AttributeError
  end.

Fixpoint boost_all (prefix : string) (l : list SearchResult)
    : result (list SearchResult) :=
  match l with
  | [] => Ok []
  | r :: l' =>
      r' <- boost prefix r ;;
      l'' <- boost_all prefix l' ;;
      Ok (r' :: l'')
  end.

Definition _rank_results (results : list SearchResult) (query : string)
    (intent : Intent) : result (list SearchResult) :=
  let ranked := sorted_desc results in
  ranked <-
    (if String.eqb (intent_type intent) "general" then Ok ranked
     else boost_all (PyStr.before_first "_"%char (intent_type intent)) ranked) ;;
  Ok (sorted_desc ranked).

(** ** [_apply_context] *)

Definition Context : Type := list (string * value).

Definition _apply_context (results : list SearchResult) (context : Context)
    : list SearchResult :=
  results.

(** ** [_generate_suggestions] *)

Definition suggestions_of (r : SearchResult) : result (list string) :=
  match data r with
  | Dict fields =>
      manage <-
        match lookup "crops" fields with
        | Some crops =>
            first_two <- value_take 2 crops ;;
            items <- iterate first_two ;;
            Ok (map (fun crop =>
                       "How to manage " ++ key r ++ " in " ++ scalar_str crop ++ "?")%string
                    items)
        | None => Ok []
        end ;;
      let prevent :=
        match lookup "prevention" fields with
        | Some prevention =>
            if truthy prevention then ["How to prevent " ++ key r ++ "?"]%string else []
        | None => []
        end in
      Ok (manage ++ prevent)
  | NotDict _ => Ok []
  end.

Fixpoint collect_suggestions (results : list SearchResult) : result (list string) :=
  match results with
  | [] => Ok []
  | r :: results' =>
      s <- suggestions_of r ;;
      rest <- collect_suggestions results' ;;
      Ok (s ++ rest)
  end.

(** [list(set(suggestions))[:5]]: the order in which Python iterates over a
    set of strings is not specified; the embedding lists the distinct
    suggestions in the order in which they were appended. *)
Definition _generate_suggestions (query : string) (results : list SearchResult)
    : result (list string) :=
  suggestions <- collect_suggestions (firstn 5 results) ;;
  Ok (firstn 5 (PyStr.dedup suggestions)).

(** ** Engine state and [_update_search_history]

    [datetime.now().isoformat()] reads a clock; the embedding keeps a tick
    counter next to the attributes of the engine and stamps with its value. *)

Record HistoryEntry : Type := mkEntry {
  h_query : string;
  h_timestamp : nat;
  h_results_count : nat
}.

Record Engine : Type := mkEngine {
  search_history : list HistoryEntry;
  total_searches : nat;
  clock : nat
}.

(** The engine after [__init__], at clock [0]. *)
Definition new_engine : Engine := mkEngine [] 0 0.

(** [l[-n:]] for [n > 0] *)
Definition last_n {A : Type} (n : nat) (l : list A) : list A :=
  skipn (List.length l - n) l.

Definition _update_search_history (self : Engine) (query : string)
    (results : list SearchResult) : Engine :=
  let history :=
    search_history self ++ [mkEntry query (clock self) (List.length results)] in
  let history :=
    if 100 <? List.length history then last_n 100 history else history in
  mkEngine history (total_searches self) (S (clock self)).

(** ** [search] *)

Record Outcome : Type := mkOutcome {
  o_query : string;
  o_processed_query : string;
  o_intent : Intent;
  o_results : list SearchResult;
  o_total_results : nat;
  o_search_time : nat;
  o_suggestions : list string
}.

(** The first half of [search], up to the ranked list: nothing here reads or
    writes the engine.  [if context:] holds for a non-empty [dict]. *)
Definition ranked_results (query : string) (knowledge_base : KnowledgeBase)
    (context : option Context) : result (list SearchResult) :=
  let processed_query := _preprocess_query query in
  let intent := _extract_intent processed_query in
  let expanded_query := _expand_query processed_query in
  results <- _search_knowledge_base expanded_query knowledge_base ;;
  ranked <- _rank_results results processed_query intent ;;
  Ok (match context with
      | Some (_ :: _ as c) => _apply_context ranked c
      | _ => ranked
      end).

(** [search] returns the outcome or the exception raised, with the engine
    as the call leaves it. *)
Definition search (self : Engine) (query : string) (knowledge_base : KnowledgeBase)
    (context : option Context) : result Outcome * Engine :=
  let self :=
    mkEngine (search_history self) (S (total_searches self)) (clock self) in
  match ranked_results query knowledge_base context with
  | Raise e => (Raise e, self)
  | Ok ranked =>
      let self := _update_search_history self query ranked in
      let search_time := clock self in
      let self :=
        mkEngine (search_history self) (total_searches self) (S (clock self)) in
      match _generate_suggestions query ranked with
      | Raise e => (Raise e, self)
      | Ok suggestions =>
          (Ok (mkOutcome query (_preprocess_query query)
                 (_extract_intent (_preprocess_query query))
                 (firstn 10 ranked) (List.length ranked) search_time suggestions),
           self)
      end
  end.

(** ** [get_trending_queries] and [get_search_stats] *)

(** [query_counts[q] += 1] on a [defaultdict(int)], kept in the order in
    which the keys were first seen. *)
Fixpoint increment (q : string) (counts : list (string * nat))
    : list (string * nat) :=
  match counts with
  | [] => [(q, 1)]
  | (k, n) :: counts' =>
      if String.eqb k q then (k, S n) :: counts'
      else (k, n) :: increment q counts'
  end.

(** The loop [for search in window: query_counts[search['query']] += 1]. *)
Definition count_queries (window : list HistoryEntry) : list (string * nat) :=
  fold_left (fun counts e => increment (h_query e) counts) window [].

(** [sorted(items, key=lambda x: x[1], reverse=True)], a stable sort. *)
Fixpoint insert_count (x : string * nat) (l : list (string * nat))
    : list (string * nat) :=
  match l with
  | [] => [x]
  | y :: l' => if snd y <=? snd x then x :: l else y :: insert_count x l'
  end.

Definition sorted_counts (l : list (string * nat)) : list (string * nat) :=
  fold_right insert_count [] l.

Definition get_trending_queries (self : Engine) : list string :=
  let query_counts := count_queries (last_n 50 (search_history self)) in
  let trending := sorted_counts query_counts in
  map fst (firstn 10 trending).

Record SearchStats : Type := mkStats {
  stat_total_searches : nat;
  stat_recent_searches : nat;
  stat_trending_queries : list string
}.

Definition get_search_stats (self : Engine) : SearchStats :=
  mkStats (total_searches self) (List.length (search_history self))
    (get_trending_queries self).

(** ** [RealTimeChatAI]: the conversation log

    [_update_conversation] and [get_conversation_context] read and write
    the attribute [conversation_history] only; the clock is the tick
    counter of the search engine the chat owns.  A session identifier is a
    string or [None]. *)

Record ConversationEntry : Type := mkConversation {
  c_session_id : option string;
  c_message : string;
  c_response : string;
  c_timestamp : nat
}.

Record ChatAI : Type := mkChat {
  knowledge_base : KnowledgeBase;
  search_engine : Engine;
  conversation_history : list ConversationEntry
}.

(** The chat after [__init__]. *)
Definition new_chat (kb : KnowledgeBase) : ChatAI := mkChat kb new_engine [].

Definition tick (self : Engine) : Engine :=
  mkEngine (search_history self) (total_searches self) (S (clock self)).

Definition _update_conversation (self : ChatAI) (message response : string)
    (session_id : option string) : ChatAI :=
  let history :=
    conversation_history self
    ++ [mkConversation session_id message response (clock (search_engine self))] in
  let history :=
    if 50 <? List.length history then last_n 50 history else history in
  mkChat (knowledge_base self) (tick (search_engine self)) history.

(** [a == b] for two session identifiers *)
Definition session_eqb (a b : option string) : bool :=
  match a, b with
  | Some x, Some y => String.eqb x y
  | None, None => true
  | _, _ => false
  end.

Definition get_conversation_context (self : ChatAI) (session_id : option string)
    : list ConversationEntry :=
  last_n 10
    (filter (fun conv => session_eqb (c_session_id conv) session_id)
       (conversation_history self)).

(** * Predicates and sample data of the properties *)

(** ** The history log *)

(** A call of [search]: the query, the knowledge mapping and the context. *)
Definition Call : Type := string * KnowledgeBase * option Context.

(** The engine after a sequence of calls of [search], whatever each call
    returned or raised. *)
Definition run_searches (self : Engine) (calls : list Call) : Engine :=
  fold_left (fun st c => snd (search st (fst (fst c)) (snd (fst c)) (snd c)))
    calls self.

Definition call_query (c : Call) : string := fst (fst c).

(** The call gets as far as the ranked list, that is, to the point where
    [search] appends to the history. *)
Definition ranks (c : Call) : bool :=
  match ranked_results (fst (fst c)) (snd (fst c)) (snd c) with
  | Ok _ => true
  | Raise _ => false
  end.

(** The engine after a sequence of calls of [_update_search_history]. *)
Definition run_updates (self : Engine)
    (updates : list (string * list SearchResult)) : Engine :=
  fold_left (fun st u => _update_search_history st (fst u) (snd u)) updates self.

(** The entries a sequence of updates appends, stamped from tick [t] on. *)
Fixpoint entries_from (t : nat) (updates : list (string * list SearchResult))
    : list HistoryEntry :=
  match updates with
  | [] => []
  | u :: updates' =>
      mkEntry (fst u) t (List.length (snd u)) :: entries_from (S t) updates'
  end.

(** 150 calls of [search], with the queries ["q0"], ["q1"], ... *)
Definition sample_calls : list Call :=
  map (fun i => (("q" ++ NilZero.string_of_uint (Nat.to_uint i))%string,
                 [("aphids", Dict [])], None))
    (seq 0 150).

(** 150 updates, with the queries ["q0"], ["q1"], ... *)
Definition sample_updates : list (string * list SearchResult) :=
  map (fun i => (("q" ++ NilZero.string_of_uint (Nat.to_uint i))%string, []))
    (seq 0 150).

(** ** Ranked results *)

(** The ranked part of what [search] returns. *)
Definition ranking (r : result Outcome) : result (list SearchResult * nat) :=
  match r with
  | Ok o => Ok (o_results o, o_total_results o)
  | Raise e => Raise e
  end.

Definition descending (l : list SearchResult) : Prop :=
  StronglySorted (fun x y => (score y <= score x)%Q) l.

Definition is_dict (d : entry_data) : bool :=
  match d with Dict _ => true | NotDict _ => false end.

(** The result's entry has category [prefix]. *)
Definition category_is (prefix : string) (r : SearchResult) : bool :=
  match data r with
  | Dict fields => value_eq_str (lookup "category" fields) prefix
  | NotDict _ => false
  end.

(** The boost as the specification words it: the score is multiplied by 1.2
    when the category of the entry is the prefix of the topic. *)
Definition boosted (prefix : string) (r : SearchResult) : SearchResult :=
  if category_is prefix r then with_score r (score r * (12 # 10)) else r.

(** A ["pest"] and a ["disease"] result, both scoring 10. *)
Definition sample_pest : SearchResult :=
  mkResult "aphids" (Dict [("category", VScalar (SStr "pest"))]) 10 "aphids".

Definition sample_disease : SearchResult :=
  mkResult "leaf spot" (Dict [("category", VScalar (SStr "disease"))]) 10 "leaf spot".

Definition pest_control_intent : Intent :=
  mkIntent "pest_control" (Some "control") None (9 # 10).

(** ** Crop lists *)

(** The crop list of an entry: empty when the entry has no ["crops"] field. *)
Definition crop_list (fields : list (string * value)) : option (list scalar) :=
  match lookup "crops" fields with
  | None => Some []
  | Some (VList l) => Some l
  | Some (VScalar _) => None
  end.

(** [fields[k] = v] *)
Fixpoint set_field (k : string) (v : value) (fields : list (string * value))
    : list (string * value) :=
  match fields with
  | [] => [(k, v)]
  | (k', v') :: fields' =>
      if String.eqb k' k then (k, v) :: fields'
      else (k', v') :: set_field k v fields'
  end.

(** A stage of the scoring [f] adds to the score it is given. *)
Definition additive (f : Q -> result Q) : Prop :=
  forall s r s' d, f s = Ok r -> (s' == s + d)%Q ->
    exists r', f s' = Ok r' /\ (r' == r + d)%Q.

(** The fields of an entry that lists ["wheat"] only, and its score for
    the key ["aphids"] against the normalized aphids query. *)
Definition wheat_only : list (string * value) := [("crops", VList [SStr "wheat"])].

Definition wheat_only_score : Q :=
  Eval vm_compute in
    match _calculate_relevance "how to control aphids in mustard?" "aphids"
            (Dict wheat_only) with
    | Ok s => s
    | Raise _ => 0%Q
    end.

(** ** The match set *)

(** The result [r] records the score of its entry against the first of the
    variants [queries] that gives the entry a positive score. *)
Definition first_positive (queries : list string) (kb : KnowledgeBase)
    (r : SearchResult) : Prop :=
  exists i,
    nth_error queries i = Some (matched_query r) /\
    In (key r, data r) kb /\
    _calculate_relevance (matched_query r) (key r) (data r) = Ok (score r) /\
    (0 < score r)%Q /\
    forall j q, j < i -> nth_error queries j = Some q ->
      exists s, _calculate_relevance q (key r) (data r) = Ok s /\ ~ (0 < s)%Q.

(** The invariant of the outer loop, after the variants [done]. *)
Record matcher_inv (kb : KnowledgeBase) (done : list string)
    (results : list SearchResult)
    (seen : list string) : Prop := {
  inv_seen : forall k, In k seen <-> In k (map key results);
  inv_nodup : NoDup (map key results);
  inv_results : forall r, In r results -> first_positive done kb r;
  inv_unseen : forall k d q, In (k, d) kb -> ~ In k seen -> In q done ->
    exists s, _calculate_relevance q k d = Ok s /\ Qltb 0 s = false
}.

(** Two variants and an entry that scores nothing against the first. *)
Definition two_variants : list string := ["xyz"; "aphids"].

Definition bare_aphids : KnowledgeBase := [("aphids", Dict [])].

Definition two_variants_results : list SearchResult :=
  Eval vm_compute in
    match _search_knowledge_base two_variants bare_aphids with
    | Ok rs => rs
    | Raise _ => []
    end.

(** ** Entries that score nothing *)

Section QuietEntries.

Variable q : string.

Definition occurs_in (s : string) (c : ascii) : bool :=
  existsb (Ascii.eqb c) (list_ascii_of_string s).

(** The key is not empty and none of its characters occurs in [q]. *)
Definition key_quiet (k : string) : bool :=
  negb (String.eqb k "")
  && forallb (fun c => negb (occurs_in q c)) (list_ascii_of_string k).

(** A string that is not a substring of [q]. *)
Definition absent (x : scalar) : bool :=
  match x with
  | SStr s => negb (PyStr.contains s q)
  | _ => false
  end.

Definition all_absent (v : option value) : bool :=
  match v with
  | None => true
  | Some (VList l) => forallb absent l
  | Some (VScalar _) => false
  end.

Definition label_absent (v : option value) : bool :=
  match v with
  | None => true
  | Some (VScalar x) => absent x
  | Some (VList _) => false
  end.

(** A text none of whose words, in lower case, is a word of [q]. *)
Definition no_common_word (v : option value) : bool :=
  match v with
  | None => true
  | Some (VScalar (SStr s)) =>
      forallb (fun w => negb (PyStr.mem w (PyStr.split q)))
        (PyStr.split (PyStr.lower s))
  | Some _ => false
  end.

Definition quiet_entry (e : string * entry_data) : bool :=
  key_quiet (fst e)
  && match snd e with
     | NotDict _ => true
     | Dict fields =>
         all_absent (lookup "crops" fields)
         && label_absent (lookup "category" fields)
         && all_absent (lookup "symptoms" fields)
         && no_common_word (lookup "solution" fields)
     end.

End QuietEntries.

Definition nonempty_str (x : scalar) : bool :=
  match x with
  | SStr s => negb (String.eqb s "")
  | _ => false
  end.

(** An absent field or a list of non-empty strings. *)
Definition nonempty_strs (v : option value) : bool :=
  match v with
  | None => true
  | Some (VList l) => forallb nonempty_str l
  | Some (VScalar _) => false
  end.

(** An absent field or a non-empty string. *)
Definition nonempty_label (v : option value) : bool :=
  match v with
  | None => true
  | Some (VScalar x) => nonempty_str x
  | Some (VList _) => false
  end.

(** An absent field or a string. *)
Definition text (v : option value) : bool :=
  match v with
  | None => true
  | Some (VScalar (SStr _)) => true
  | Some _ => false
  end.

(** An entry of the data model whose key, crops, category and symptoms are
    non-empty strings. *)
Definition plain_entry (e : string * entry_data) : bool :=
  negb (String.eqb (fst e) "")
  && match snd e with
     | NotDict _ => true
     | Dict fields =>
         nonempty_strs (lookup "crops" fields)
         && nonempty_label (lookup "category" fields)
         && nonempty_strs (lookup "symptoms" fields)
         && text (lookup "solution" fields)
     end.

Definition blank (query : string) : bool :=
  forallb PyStr.is_space (list_ascii_of_string query).

(** ** Sample mappings *)

Definition strs (l : list string) : value := VList (map SStr l).

(** The entry of the specification's examples. *)
Definition aphids_entry : entry_data :=
  Dict [ ("crops", strs ["mustard"; "wheat"]);
         ("category", VScalar (SStr "pest"));
         ("symptoms", strs ["curled leaves"]) ].

Definition aphids_kb : KnowledgeBase := [("aphids", aphids_entry)].

Definition abc_kb : KnowledgeBase := [("abc", Dict [("crops", strs ["wheat"])])].

Definition mildew_kb : KnowledgeBase :=
  [ ("mildew",
      Dict [ ("crops", strs ["melon"; "pumpkin"]);
             ("solution", VScalar (SStr "Spray wettable sulphur"));
             ("category", VScalar (SStr "disease"));
             ("symptoms", strs ["white powder"]) ]) ].

Definition aphids_query : string := "How to control aphids in mustard?".

(** An entry whose crop list holds the number 5. *)
Definition number_in_crops : entry_data := Dict [("crops", VList [SInt 5])].


(** ** Bounds of a longest match *)

(** The match lies in [a[alo:i]]. *)
Definition within (alo i : nat) (m : Difflib.best) : Prop :=
  alo <= Difflib.besti m /\ Difflib.besti m + Difflib.bestsize m <= i.

Definition lengths_below (alo i : nat) (j2len : list (nat * nat)) : Prop :=
  forall j k, In (j, k) j2len -> alo + k <= i.

(** The score of the bare ["aphids"] entry against the variant ["aphids"]. *)
Definition bare_aphids_score : Q :=
  Eval vm_compute in
    match _calculate_relevance "aphids" "aphids" (Dict []) with
    | Ok s => s
    | Raise _ => 0%Q
    end.

(** The ranked result [r'] stands for the match [r]: same key, data and
    variant, and the score of [r], boosted or not. *)
Definition ranked_from (r r' : SearchResult) : Prop :=
  key r' = key r /\ data r' = data r /\ matched_query r' = matched_query r /\
  (score r' = score r \/ score r' = (score r * (12 # 10))%Q).

(** How often the query [q] occurs in a part of the history. *)
Definition occurrences (q : string) (window : list HistoryEntry) : nat :=
  List.length (filter (fun e => String.eqb (h_query e) q) window).

(** [query_counts[q]], 0 when [q] is no key. *)
Definition count_of (q : string) (counts : list (string * nat)) : nat :=
  match lookup q counts with
  | Some n => n
  | None => 0
  end.

(** A turn of a conversation: the message, the response and the session. *)
Definition Turn : Type := string * string * option string.

Definition turn_of (conv : ConversationEntry) : Turn :=
  (c_message conv, c_response conv, c_session_id conv).

Definition turn_session (t : Turn) : option string := snd t.

(** The chat after a sequence of calls of [_update_conversation]. *)
Definition run_turns (self : ChatAI) (turns : list Turn) : ChatAI :=
  fold_left
    (fun st t => _update_conversation st (fst (fst t)) (snd (fst t)) (snd t))
    turns self.

(** Some pattern of the group is found in the query. *)
Definition group_matches (query : string) (g : string * list Re.regex) : bool :=
  existsb (fun pattern => Re.search pattern query) (snd g).

(** The label of the first group, in the order of the table, with a pattern
    found in the query. *)
Fixpoint first_group (groups : list (string * list Re.regex)) (query : string)
    : option string :=
  match groups with
  | [] => None
  | g :: groups' =>
      if group_matches query g then Some (fst g) else first_group groups' query
  end.

(** The word has an entry in the synonym table. *)
Definition has_synonyms (word : string) : bool :=
  match lookup word synonyms with
  | Some _ => true
  | None => false
  end.

(** A character the normalizer leaves as it is and that is no whitespace:
    a word character that is not upper case, a hyphen or a question mark. *)
Definition plain_char (c : ascii) : bool :=
  kept c && negb (PyStr.is_upper c) && negb (PyStr.is_space c).

(** The text is made of plain characters and single spaces, and a space is
    not allowed where [after_space] holds or at the end. *)
Fixpoint clean_from (after_space : bool) (s : string) : bool :=
  match s with
  | EmptyString => negb after_space
  | String c s' =>
      if Ascii.eqb c " "%char then negb after_space && clean_from true s'
      else plain_char c && clean_from false s'
  end.

(** A query in normal form: plain characters, separated by single spaces,
    with no space at either end. *)
Definition clean (s : string) : bool :=
  match s with
  | EmptyString => true
  | _ => clean_from true s
  end.

(** The results whose score is [v]. *)
Definition with_score_of (v : Q) (l : list SearchResult) : list SearchResult :=
  filter (fun r => Qeq_bool (score r) v) l.

(** The match lies in [b[blo:bhi]]. *)
Definition within_b (blo bhi : nat) (m : Difflib.best) : Prop :=
  blo <= Difflib.bestj m /\ Difflib.bestj m + Difflib.bestsize m <= bhi.

(** Every run recorded in [j2len] ends inside [b[blo:bhi]]. *)
Definition ends_within (blo bhi : nat) (j2len : list (nat * nat)) : Prop :=
  forall j k, In (j, k) j2len -> blo + k <= j + 1 /\ j < bhi.

(** * Properties *)

(** ** Scores *)

Lemma Qltb_lt (x y : Q) : Qltb x y = true <-> (x < y)%Q.
Proof.
  unfold Qltb. rewrite negb_true_iff. split; intros H.
  - apply Qnot_le_lt. intros Hle. apply Qle_bool_iff in Hle. congruence.
  - destruct (Qle_bool y x) eqn:E; [|reflexivity].
    apply Qle_bool_iff in E. exfalso. exact (Qlt_not_le _ _ H E).
Qed.

Lemma Qltb_zero (s : Q) : (s == 0)%Q -> Qltb 0 s = false.
Proof.
  intros H. destruct (Qltb 0 s) eqn:E; [|reflexivity].
  apply Qltb_lt in E. rewrite H in E. exfalso. exact (Qlt_irrefl 0 E).
Qed.

(** ** The text normalizer *)

Section Normalizer.

Lemma lower_char_not_upper (c : ascii) :
  PyStr.is_upper (PyStr.lower_char c) = false.
Proof. destruct c as [[] [] [] [] [] [] [] []]; reflexivity. Qed.

Lemma lower_chars (s : string) (c : ascii) :
  In c (list_ascii_of_string (PyStr.lower s)) -> PyStr.is_upper c = false.
Proof.
  induction s as [|x s IH]; cbn; [intros []|].
  intros [<- | H]; [apply lower_char_not_upper|now apply IH].
Qed.

Lemma lstrip_chars (s : string) (c : ascii) :
  In c (list_ascii_of_string (PyStr.lstrip s)) -> In c (list_ascii_of_string s).
Proof.
  induction s as [|x s IH]; cbn; [intros []|].
  destruct (PyStr.is_space x); [intros H; right; now apply IH|trivial].
Qed.

Lemma rstrip_chars (s : string) (c : ascii) :
  In c (list_ascii_of_string (PyStr.rstrip s)) -> In c (list_ascii_of_string s).
Proof.
  induction s as [|x s IH]; cbn [PyStr.rstrip]; [intros []|].
  destruct (PyStr.rstrip s) as [|y r].
  - destruct (PyStr.is_space x); cbn; [intros []|intros [<- | []]; now left].
  - cbn [list_ascii_of_string] in *. intros [<- | H]; [now left|].
    right. now apply IH.
Qed.

Lemma collapse_chars (s : string) (c : ascii) :
  forall in_run,
    In c (list_ascii_of_string (collapse_whitespace in_run s)) ->
    c = " "%char \/ In c (list_ascii_of_string s).
Proof.
  induction s as [|x s IH]; intros in_run; cbn; [intros []|].
  destruct (PyStr.is_space x).
  - destruct in_run; cbn.
    + intros H. destruct (IH _ H); auto.
    + intros [<- | H]; [now left|]. destruct (IH _ H); auto.
  - cbn. intros [<- | H]; [auto|]. destruct (IH _ H); auto.
Qed.

Lemma remove_special_chars (s : string) (c : ascii) :
  In c (list_ascii_of_string (remove_special s)) ->
  kept c = true /\ In c (list_ascii_of_string s).
Proof.
  induction s as [|x s IH]; cbn; [intros []|].
  destruct (kept x) eqn:E; cbn.
  - intros [<- | H]; [auto|]. destruct (IH H); auto.
  - intros H. destruct (IH H); auto.
Qed.

(** The part of C4 that holds: the output has no upper-case letter and no
    character other than word characters, whitespace, hyphen and question
    mark, and the empty query gives the empty output. *)
Lemma preprocess_characters (query : string) (c : ascii) :
  In c (list_ascii_of_string (_preprocess_query query)) ->
  kept c = true /\ PyStr.is_upper c = false.
Proof.
  unfold _preprocess_query, PyStr.strip. intros H.
  apply remove_special_chars in H. destruct H as [Hk H]. split; [exact Hk|].
  apply collapse_chars in H. destruct H as [-> | H]; [reflexivity|].
  apply rstrip_chars, lstrip_chars in H. now apply (lower_chars query).
Qed.

Lemma preprocess_empty : _preprocess_query "" = "".
Proof. reflexivity. Qed.

End Normalizer.

(** C4.  [_preprocess_query] strips and collapses whitespace before it
    removes the special characters, so whitespace that was next to a removed
    character stays: ["hello @"] keeps a trailing space and ["a @ b"] a run
    of two spaces. *)
Theorem preprocess_keeps_exposed_whitespace :
  _preprocess_query "hello @" = "hello " /\
  _preprocess_query "a @ b" = "a  b".
Proof. split; reflexivity. Qed.

(** ** The history log *)

Section History.

Lemma last_n_length {A : Type} (n : nat) (l : list A) :
  n <= List.length l -> List.length (last_n n l) = n.
Proof. intros H. unfold last_n. rewrite length_skipn. lia. Qed.

Lemma last_n_short {A : Type} (n : nat) (l : list A) :
  List.length l <= n -> last_n n l = l.
Proof.
  intros H. unfold last_n.
  replace (List.length l - n) with 0 by lia. reflexivity.
Qed.

Lemma last_n_app {A : Type} (n : nat) (l r : list A) :
  last_n n (last_n n l ++ r) = last_n n (l ++ r).
Proof.
  destruct (Nat.le_gt_cases (List.length l) n) as [Hle | Hgt].
  - now rewrite (last_n_short n l Hle).
  - unfold last_n at 1 3. rewrite !length_app, last_n_length by lia.
    unfold last_n.
    replace (List.length l + List.length r - n)
      with ((n + List.length r - n) + (List.length l - n)) by lia.
    rewrite <- skipn_skipn. f_equal.
    rewrite skipn_app.
    replace (List.length l - n - List.length l) with 0 by lia.
    reflexivity.
Qed.

(** What [_update_search_history] leaves is the last 100 entries of the
    log with the new entry appended. *)
Lemma update_history_last_n (self : Engine) (q : string) (rs : list SearchResult) :
  search_history (_update_search_history self q rs)
  = last_n 100 (search_history self ++ [mkEntry q (clock self) (List.length rs)]).
Proof.
  unfold _update_search_history. cbn [search_history].
  destruct (Nat.ltb_spec 100
              (List.length (search_history self
                            ++ [mkEntry q (clock self) (List.length rs)]))) as [H | H].
  - reflexivity.
  - now rewrite last_n_short.
Qed.

Lemma update_history_bounded (self : Engine) (q : string) (rs : list SearchResult) :
  List.length (search_history (_update_search_history self q rs)) <= 100.
Proof.
  rewrite update_history_last_n.
  set (l := search_history self ++ _).
  destruct (Nat.le_gt_cases (List.length l) 100) as [Hle | Hgt].
  - now rewrite last_n_short.
  - rewrite last_n_length; lia.
Qed.

Lemma search_history_bounded (self : Engine) (q : string) (kb : KnowledgeBase)
    (context : option Context) :
  List.length (search_history self) <= 100 ->
  List.length (search_history (snd (search self q kb context))) <= 100.
Proof.
  intros H. unfold search.
  destruct (ranked_results q kb context) as [ranked | e]; [|exact H].
  destruct (_generate_suggestions q ranked); cbn [snd search_history];
    apply update_history_bounded.
Qed.

End History.

Lemma entries_from_length (t : nat) (updates : list (string * list SearchResult)) :
  List.length (entries_from t updates) = List.length updates.
Proof.
  revert t. induction updates as [|u us IH]; intros t; cbn; [reflexivity|].
  now rewrite IH.
Qed.

Lemma run_searches_bounded (calls : list Call) (self : Engine) :
  List.length (search_history self) <= 100 ->
  List.length (search_history (run_searches self calls)) <= 100.
Proof.
  revert self. induction calls as [|c calls IH]; intros self H; cbn.
  - exact H.
  - apply IH. now apply search_history_bounded.
Qed.

Lemma run_updates_history (updates : list (string * list SearchResult))
    (self : Engine) :
  List.length (search_history self) <= 100 ->
  search_history (run_updates self updates)
  = last_n 100 (search_history self ++ entries_from (clock self) updates).
Proof.
  revert self. induction updates as [|u us IH]; intros self H.
  - cbn. rewrite app_nil_r. now rewrite last_n_short.
  - cbn [run_updates fold_left entries_from].
    change (fold_left _ us ?st) with (run_updates st us).
    rewrite IH by apply update_history_bounded.
    rewrite update_history_last_n. cbn [_update_search_history clock].
    rewrite last_n_app, <- app_assoc. reflexivity.
Qed.

Lemma map_last_n {A B : Type} (f : A -> B) (n : nat) (l : list A) :
  map f (last_n n l) = last_n n (map f l).
Proof. unfold last_n. now rewrite skipn_map, length_map. Qed.

(** [search] appends to the history exactly when it gets to the ranked
    list. *)
Lemma search_history_after (self : Engine) (q : string) (kb : KnowledgeBase)
    (context : option Context) :
  search_history (snd (search self q kb context))
  = match ranked_results q kb context with
    | Ok ranked =>
        last_n 100
          (search_history self ++ [mkEntry q (clock self) (List.length ranked)])
    | Raise _ => search_history self
    end.
Proof.
  unfold search. destruct (ranked_results q kb context) as [ranked | e];
    [|reflexivity].
  destruct (_generate_suggestions q ranked); cbn [snd search_history];
    now rewrite update_history_last_n.
Qed.

Lemma run_searches_queries (calls : list Call) (self : Engine) :
  forallb ranks calls = true ->
  List.length (search_history self) <= 100 ->
  map h_query (search_history (run_searches self calls))
  = last_n 100 (map h_query (search_history self) ++ map call_query calls).
Proof.
  revert self. induction calls as [|[[q kb] context] calls IH]; intros self Hok Hlen.
  - cbn. rewrite app_nil_r, last_n_short; [reflexivity|now rewrite length_map].
  - cbn [forallb] in Hok. apply andb_true_iff in Hok. destruct Hok as [Hc Hok].
    cbn [run_searches fold_left fst snd].
    change (fold_left _ calls ?st) with (run_searches st calls).
    rewrite (IH _ Hok) by now apply search_history_bounded.
    rewrite search_history_after. unfold ranks in Hc. cbn [fst snd] in Hc.
    destruct (ranked_results q kb context) as [ranked | e]; [|discriminate].
    rewrite map_last_n, map_app, last_n_app, <- app_assoc. reflexivity.
Qed.

(** C9.  After any sequence of calls of [search] on a new engine the history
    holds at most 100 entries.  After 150 calls that reach the history
    update, it holds the queries of the last 100 calls in their order; after
    150 updates it holds exactly the entries of the last 100, in the order in
    which they were appended. *)
Theorem history_bounded_fifo (calls : list Call)
    (updates : list (string * list SearchResult))
    (Hcalls : List.length calls = 150)
    (Hranks : forallb ranks calls = true)
    (Hupdates : List.length updates = 150) :
  (forall any_calls : list Call,
      List.length (search_history (run_searches new_engine any_calls)) <= 100) /\
  map h_query (search_history (run_searches new_engine calls))
  = skipn 50 (map call_query calls) /\
  search_history (run_updates new_engine updates)
  = skipn 50 (entries_from 0 updates) /\
  List.length (search_history (run_updates new_engine updates)) = 100.
Proof.
  split; [intros any_calls; apply run_searches_bounded; cbn; lia|].
  split.
  { rewrite (run_searches_queries calls new_engine Hranks) by (cbn; lia).
    cbn [new_engine search_history map app]. unfold last_n.
    now rewrite length_map, Hcalls. }
  assert (E : search_history (run_updates new_engine updates)
              = skipn 50 (entries_from 0 updates)).
  { rewrite run_updates_history by (cbn; lia).
    cbn [new_engine search_history clock app].
    unfold last_n. now rewrite entries_from_length, Hupdates. }
  split; [exact E|].
  rewrite E, length_skipn, entries_from_length. lia.
Qed.

Lemma history_bounded_fifo_witness :
  map h_query (search_history (run_searches new_engine sample_calls))
  = skipn 50 (map call_query sample_calls) /\
  search_history (run_updates new_engine sample_updates)
  = skipn 50 (entries_from 0 sample_updates).
Proof.
  assert (Hcalls : List.length sample_calls = 150) by reflexivity.
  assert (Hranks : forallb ranks sample_calls = true) by (vm_compute; reflexivity).
  assert (Hupdates : List.length sample_updates = 150) by reflexivity.
  destruct (history_bounded_fifo sample_calls sample_updates Hcalls Hranks Hupdates)
    as (_ & Hq & He & _).
  split; assumption.
Defined.

(** ** Determinism of a search *)

Lemma search_ranking (self : Engine) (q : string) (kb : KnowledgeBase)
    (context : option Context) :
  ranking (fst (search self q kb context))
  = (ranked <- ranked_results q kb context ;;
     _ <- _generate_suggestions q ranked ;;
     Ok (firstn 10 ranked, List.length ranked)).
Proof.
  unfold search. destruct (ranked_results q kb context) as [ranked | e]; cbn.
  - destruct (_generate_suggestions q ranked); reflexivity.
  - reflexivity.
Qed.

(** C6.  A second call of [search] with the same query and mapping and no
    context, made on the engine the first call left, returns the same ranked
    results (keys, scores, order and total) as the first, or raises the same
    exception. *)
Theorem search_twice_same_ranking (self : Engine) (q : string) (kb : KnowledgeBase) :
  ranking (fst (search (snd (search self q kb None)) q kb None))
  = ranking (fst (search self q kb None)).
Proof.
  rewrite (search_ranking (snd (search self q kb None))).
  rewrite (search_ranking self). reflexivity.
Qed.

(** ** The ranker *)

Section Ranker.

Lemma insert_desc_perm (x : SearchResult) (l : list SearchResult) :
  Permutation (insert_desc x l) (x :: l).
Proof.
  induction l as [|y l IH]; cbn; [reflexivity|].
  destruct (Qle_bool (score y) (score x)); [reflexivity|].
  rewrite IH. apply perm_swap.
Qed.

Lemma sorted_desc_perm (l : list SearchResult) : Permutation (sorted_desc l) l.
Proof.
  induction l as [|x l IH]; cbn; [reflexivity|].
  rewrite insert_desc_perm. now constructor.
Qed.

Lemma insert_desc_sorted (x : SearchResult) (l : list SearchResult) :
  descending l -> descending (insert_desc x l).
Proof.
  unfold descending. induction 1 as [|y l Hl IH Hy]; cbn.
  - repeat constructor.
  - destruct (Qle_bool (score y) (score x)) eqn:E.
    + apply Qle_bool_iff in E. constructor; [now constructor|].
      constructor; [exact E|].
      eapply Forall_impl; [|exact Hy]. cbn. intros z Hz.
      now apply Qle_trans with (score y).
    + assert (Hxy : (score x <= score y)%Q).
      { apply Qlt_le_weak, Qnot_le_lt. intros Hle.
        apply Qle_bool_iff in Hle. congruence. }
      constructor; [exact IH|].
      apply (Permutation_Forall (Permutation_sym (insert_desc_perm x l))).
      now constructor.
Qed.

Lemma sorted_desc_sorted (l : list SearchResult) : descending (sorted_desc l).
Proof.
  induction l as [|x l IH]; cbn; [constructor|].
  now apply insert_desc_sorted.
Qed.

Lemma boost_dict (prefix : string) (r : SearchResult) :
  is_dict (data r) = true -> boost prefix r = Ok (boosted prefix r).
Proof.
  unfold boost, boosted, category_is. destruct (data r); [|discriminate].
  intros _. now destruct (value_eq_str _ _).
Qed.

Lemma boost_all_dicts (prefix : string) (l : list SearchResult) :
  Forall (fun r => is_dict (data r) = true) l ->
  boost_all prefix l = Ok (map (boosted prefix) l).
Proof.
  induction 1 as [|r l Hr Hl IH]; cbn; [reflexivity|].
  now rewrite boost_dict, IH.
Qed.

Lemma rank_results_dicts (results : list SearchResult) (query : string)
    (intent : Intent) :
  intent_type intent <> "general" ->
  Forall (fun r => is_dict (data r) = true) results ->
  _rank_results results query intent
  = Ok (sorted_desc
          (map (boosted (PyStr.before_first "_"%char (intent_type intent)))
             (sorted_desc results))).
Proof.
  intros Htopic Hdict. unfold _rank_results.
  apply String.eqb_neq in Htopic. rewrite Htopic.
  rewrite boost_all_dicts; [reflexivity|].
  apply (Permutation_Forall (Permutation_sym (sorted_desc_perm results))).
  exact Hdict.
Qed.

End Ranker.

(** C8.  With a topic other than ["general"] the ranker returns the results
    with the score of those in the category named by the topic's prefix
    multiplied by 1.2, sorted by descending score.  With topic
    ["pest_control"] and a ["pest"] and a ["disease"] entry both scoring 10,
    the ["pest"] entry comes first with score 12, the ["disease"] entry
    second with score 10. *)
Theorem intent_boost (results : list SearchResult) (query : string)
    (intent : Intent)
    (Htopic : intent_type intent <> "general")
    (Hdict : Forall (fun r => is_dict (data r) = true) results) :
  (exists ranked,
      _rank_results results query intent = Ok ranked /\
      Permutation ranked
        (map (boosted (PyStr.before_first "_"%char (intent_type intent))) results) /\
      descending ranked) /\
  (forall (pest disease : SearchResult) (fp fd : list (string * value)),
      data pest = Dict fp -> lookup "category" fp = Some (VScalar (SStr "pest")) ->
      data disease = Dict fd ->
      lookup "category" fd = Some (VScalar (SStr "disease")) ->
      (score pest == 10)%Q -> (score disease == 10)%Q ->
      intent_type intent = "pest_control" ->
      results = [disease; pest] \/ results = [pest; disease] ->
      _rank_results results query intent
      = Ok [with_score pest (score pest * (12 # 10)); disease] /\
      (score pest * (12 # 10) == 12)%Q).
Proof.
  split.
  - eexists. split; [now apply rank_results_dicts|]. split.
    + rewrite sorted_desc_perm. apply Permutation_map, sorted_desc_perm.
    + apply sorted_desc_sorted.
  - intros pest disease fp fd Hp Hcp Hd Hcd Hsp Hsd Hty Hres.
    split; [|rewrite Hsp; reflexivity].
    rewrite rank_results_dicts by assumption. rewrite Hty.
    change (PyStr.before_first "_"%char "pest_control") with "pest".
    assert (Bp : boosted "pest" pest = with_score pest (score pest * (12 # 10))).
    { unfold boosted, category_is. now rewrite Hp, Hcp. }
    assert (Bd : boosted "pest" disease = disease).
    { unfold boosted, category_is. now rewrite Hd, Hcd. }
    assert (E1 : Qle_bool (score pest) (score disease) = true).
    { rewrite Hsp, Hsd. reflexivity. }
    assert (E2 : Qle_bool (score disease) (score pest) = true).
    { rewrite Hsp, Hsd. reflexivity. }
    assert (E3 : Qle_bool (score disease) (score pest * (12 # 10)) = true).
    { rewrite Hsp, Hsd. reflexivity. }
    assert (E4 : Qle_bool (score pest * (12 # 10)) (score disease) = false).
    { rewrite Hsp, Hsd. reflexivity. }
    destruct Hres as [-> | ->]; cbn [sorted_desc fold_right insert_desc map];
      rewrite ?E1, ?E2; cbn [map]; rewrite Bp, Bd;
      cbn [fold_right insert_desc with_score score]; rewrite ?E3, ?E4; reflexivity.
Qed.

Lemma intent_boost_witness :
  _rank_results [sample_disease; sample_pest] "control aphids" pest_control_intent
  = Ok [with_score sample_pest (score sample_pest * (12 # 10)); sample_disease].
Proof.
  assert (Htopic : intent_type pest_control_intent <> "general") by discriminate.
  assert (Hdict : Forall (fun r => is_dict (data r) = true)
                    [sample_disease; sample_pest])
    by (repeat constructor).
  apply (proj2 (intent_boost [sample_disease; sample_pest] "control aphids"
                  pest_control_intent Htopic Hdict)
           sample_pest sample_disease _ _ eq_refl eq_refl eq_refl eq_refl);
    try reflexivity.
  now left.
Defined.

(** ** Monotonicity of the crop contribution *)

Section CropMonotone.

Lemma lookup_set_field_same (k : string) (v : value) (fields : list (string * value)) :
  lookup k (set_field k v fields) = Some v.
Proof.
  induction fields as [|[k' v'] fields IH]; cbn.
  - now rewrite String.eqb_refl.
  - destruct (String.eqb k' k) eqn:E; cbn.
    + now rewrite String.eqb_refl.
    + now rewrite E.
Qed.

Lemma lookup_set_field_other (k k0 : string) (v : value)
    (fields : list (string * value)) :
  k0 <> k -> lookup k0 (set_field k v fields) = lookup k0 fields.
Proof.
  intros Hne. induction fields as [|[k' v'] fields IH]; cbn.
  - apply String.eqb_neq in Hne. rewrite String.eqb_sym. now rewrite Hne.
  - destruct (String.eqb k' k) eqn:E; cbn.
    + apply String.eqb_eq in E. subst k'.
      apply String.eqb_neq in Hne. rewrite String.eqb_sym. now rewrite Hne.
    + now rewrite IH.
Qed.

Lemma add_matches_additive (w : Q) (query : string) (items : list scalar) :
  additive (add_matches w query items).
Proof.
  induction items as [|x items IH]; intros s r s' d Hr Hs; cbn in *.
  - inversion Hr; subst. now exists s'.
  - destruct (scalar_in x query) as [hit | e]; cbn in *; [|discriminate].
    apply (IH _ _ _ d Hr). destruct hit; [|exact Hs].
    rewrite Hs. ring.
Qed.

Lemma add_matches_app (w : Q) (query : string) (l1 l2 : list scalar) (s : Q) :
  add_matches w query (l1 ++ l2) s
  = (s1 <- add_matches w query l1 s ;; add_matches w query l2 s1).
Proof.
  revert s. induction l1 as [|x l1 IH]; intros s; cbn; [reflexivity|].
  destruct (scalar_in x query); cbn; [apply IH|reflexivity].
Qed.

Lemma category_score_additive (query : string) (fields : list (string * value)) :
  additive (category_score query fields).
Proof.
  intros s r s' d Hr Hs. unfold category_score in *.
  destruct (lookup "category" fields) as [c|].
  - destruct (value_in c query) as [hit | e]; cbn in *; [|discriminate].
    inversion Hr; subst. eexists. split; [reflexivity|].
    destruct hit; rewrite Hs; ring.
  - inversion Hr; subst. now exists s'.
Qed.

Lemma symptoms_score_additive (query : string) (fields : list (string * value)) :
  additive (symptoms_score query fields).
Proof.
  intros s r s' d Hr Hs. unfold symptoms_score in *.
  destruct (lookup "symptoms" fields) as [c|].
  - destruct (iterate c) as [items | e]; cbn in *; [|discriminate].
    now apply (add_matches_additive 2 query items s r s' d).
  - inversion Hr; subst. now exists s'.
Qed.

Lemma solution_score_additive (query : string) (fields : list (string * value)) :
  additive (solution_score query fields).
Proof.
  intros s r s' d Hr Hs. unfold solution_score in *.
  destruct (lookup "solution" fields) as [c|].
  - destruct (value_lower c) as [lowered | e]; cbn in *; [|discriminate].
    inversion Hr; subst. eexists. split; [reflexivity|].
    rewrite Hs. ring.
  - inversion Hr; subst. now exists s'.
Qed.

Lemma crops_score_list (query : string) (fields : list (string * value))
    (l : list scalar) (s : Q) :
  crop_list fields = Some l ->
  crops_score query fields s = add_matches 4 query l s.
Proof.
  unfold crop_list, crops_score.
  destruct (lookup "crops" fields) as [[x | l']|]; intros H; inversion H; subst;
    reflexivity.
Qed.

End CropMonotone.

(** C7.  When a crop name that is a substring of the query variant is added
    anywhere to the crop list of an entry, the entry's relevance is the one
    it had plus 4, which is strictly more. *)
Theorem crop_monotone (query k crop : string) (fields : list (string * value))
    (l1 l2 : list scalar) (s : Q)
    (Hcrop : PyStr.contains crop query = true)
    (Hlist : crop_list fields = Some (l1 ++ l2))
    (Hs : _calculate_relevance query k (Dict fields) = Ok s) :
  exists s',
    _calculate_relevance query k
      (Dict (set_field "crops" (VList (l1 ++ SStr crop :: l2)) fields)) = Ok s' /\
    (s' == s + 4)%Q /\ (s < s')%Q.
Proof.
  assert (Hlt : forall x y : Q, (y == x + 4)%Q -> (x < y)%Q).
  { intros x y E. rewrite E. rewrite <- (Qplus_0_r x) at 1.
    apply Qplus_lt_r. reflexivity. }
  cut (exists s',
          _calculate_relevance query k
            (Dict (set_field "crops" (VList (l1 ++ SStr crop :: l2)) fields)) = Ok s' /\
          (s' == s + 4)%Q).
  { intros (s' & E & Hq). exists s'. auto. }
  unfold _calculate_relevance in *.
  set (fields' := set_field "crops" (VList (l1 ++ SStr crop :: l2)) fields).
  set (s0 := key_score query k) in *.
  rewrite (crops_score_list query fields (l1 ++ l2) s0 Hlist) in Hs.
  assert (Hc' : crops_score query fields' s0
                = add_matches 4 query (l1 ++ SStr crop :: l2) s0).
  { unfold crops_score, fields'. now rewrite lookup_set_field_same. }
  assert (Hcat : category_score query fields' = category_score query fields).
  { unfold category_score, fields'. now rewrite lookup_set_field_other. }
  assert (Hsym : symptoms_score query fields' = symptoms_score query fields).
  { unfold symptoms_score, fields'. now rewrite lookup_set_field_other. }
  assert (Hsol : solution_score query fields' = solution_score query fields).
  { unfold solution_score, fields'. now rewrite lookup_set_field_other. }
  rewrite Hc', Hcat, Hsym, Hsol. clear Hc' Hcat Hsym Hsol.
  rewrite add_matches_app in Hs |- *.
  destruct (add_matches 4 query l1 s0) as [s1 | e]; cbn in *; [|discriminate].
  rewrite Hcrop.
  destruct (add_matches 4 query l2 s1) as [s2 | e] eqn:E2; cbn in Hs; [|discriminate].
  destruct (add_matches_additive 4 query l2 s1 s2 (s1 + 4)%Q 4%Q E2)
    as (s2' & -> & H2); [reflexivity|]. cbn.
  destruct (category_score query fields s2) as [s3 | e] eqn:E3; cbn in Hs; [|discriminate].
  destruct (category_score_additive query fields s2 s3 s2' 4%Q E3 H2)
    as (s3' & -> & H3). cbn.
  destruct (symptoms_score query fields s3) as [s4 | e] eqn:E4; cbn in Hs; [|discriminate].
  destruct (symptoms_score_additive query fields s3 s4 s3' 4%Q E4 H3)
    as (s4' & -> & H4). cbn.
  exact (solution_score_additive query fields s4 s s4' 4%Q Hs H4).
Qed.

Lemma crop_monotone_witness :
  exists s',
    _calculate_relevance "how to control aphids in mustard?" "aphids"
      (Dict (set_field "crops" (VList ([SStr "wheat"] ++ [SStr "mustard"])) wheat_only))
    = Ok s' /\
    (s' == wheat_only_score + 4)%Q /\ (wheat_only_score < s')%Q.
Proof.
  apply (crop_monotone "how to control aphids in mustard?" "aphids" "mustard"
           wheat_only [SStr "wheat"] [] wheat_only_score); reflexivity.
Defined.

(** ** The knowledge matcher *)

Section Matcher.

Variable kb : KnowledgeBase.

Lemma mem_In (x : string) (l : list string) : PyStr.mem x l = true <-> In x l.
Proof.
  unfold PyStr.mem. rewrite existsb_exists. split.
  - intros (y & Hy & E). apply String.eqb_eq in E. now subst.
  - intros H. exists x. split; [exact H|apply String.eqb_refl].
Qed.

Lemma mem_not_In (x : string) (l : list string) : PyStr.mem x l = false <-> ~ In x l.
Proof.
  rewrite <- mem_In. destruct (PyStr.mem x l); split; intros H; congruence.
Qed.

(** One pass over the mapping: what is added to the accumulators, and
    what is known of the entries that are still unseen afterwards. *)
Lemma scan_entries_spec (q : string) (entries : KnowledgeBase) :
  forall results seen results' seen',
    scan_entries q entries results seen = Ok (results', seen') ->
    exists added,
      results' = results ++ added /\
      seen' = rev (map key added) ++ seen /\
      NoDup (map key added) /\
      (forall r, In r added ->
         ~ In (key r) seen /\ In (key r, data r) entries /\
         matched_query r = q /\
         _calculate_relevance q (key r) (data r) = Ok (score r) /\
         (0 < score r)%Q) /\
      (forall k d, In (k, d) entries -> ~ In k seen' ->
         exists s, _calculate_relevance q k d = Ok s /\ Qltb 0 s = false).
Proof.
  induction entries as [|[k d] entries IH]; intros results seen results' seen' H;
    cbn in H.
  - inversion H; subst. exists []. rewrite app_nil_r. cbn.
    repeat split; try constructor; intros; contradiction.
  - destruct (PyStr.mem k seen) eqn:Hmem.
    + destruct (IH _ _ _ _ H) as (added & E1 & E2 & Hnd & Hadd & Hun).
      exists added. split; [exact E1|]. split; [exact E2|]. split; [exact Hnd|].
      split.
      * intros r Hr. destruct (Hadd r Hr) as (Hns & Hin & Hrest).
        split; [exact Hns|]. split; [now right|exact Hrest].
      * intros k0 d0 [E | Hin] Hns; [|now apply Hun].
        inversion E; subst k0 d0. exfalso. apply Hns. rewrite E2.
        apply in_or_app. right. now apply mem_In.
    + apply mem_not_In in Hmem.
      destruct (_calculate_relevance q k d) as [s | e] eqn:Hrel; cbn in H;
        [|discriminate].
      destruct (Qltb 0 s) eqn:Hpos.
      * destruct (IH _ _ _ _ H) as (added & E1 & E2 & Hnd & Hadd & Hun).
        exists (mkResult k d s q :: added). cbn [map key rev].
        split; [now rewrite E1, <- app_assoc|].
        split; [now rewrite E2, <- app_assoc|].
        split.
        { constructor; [|exact Hnd].
          intros Hin. apply in_map_iff in Hin. destruct Hin as (r & Hk & Hr).
          destruct (Hadd r Hr) as (Hns & _). apply Hns. left. now symmetry. }
        split.
        { intros r [<- | Hr]; cbn.
          - split; [exact Hmem|]. split; [now left|]. split; [reflexivity|].
            split; [exact Hrel|now apply Qltb_lt].
          - destruct (Hadd r Hr) as (Hns & Hin & Hrest).
            split; [intros Hs; apply Hns; now right|].
            split; [now right|exact Hrest]. }
        intros k0 d0 [E | Hin] Hns; [|now apply Hun].
        inversion E; subst k0 d0. exfalso. apply Hns. rewrite E2.
        apply in_or_app. right. now left.
      * destruct (IH _ _ _ _ H) as (added & E1 & E2 & Hnd & Hadd & Hun).
        exists added. split; [exact E1|]. split; [exact E2|]. split; [exact Hnd|].
        split.
        -- intros r Hr. destruct (Hadd r Hr) as (Hns & Hin & Hrest).
           split; [exact Hns|]. split; [now right|exact Hrest].
        -- intros k0 d0 [E | Hin] Hns; [|now apply Hun].
           inversion E; subst k0 d0. now exists s.
Qed.

Lemma first_positive_more (done more : list string) (r : SearchResult) :
  first_positive done kb r -> first_positive (done ++ more) kb r.
Proof.
  intros (i & Hi & Hin & Hsc & Hp & Hbefore).
  assert (Hlen : i < List.length done).
  { apply nth_error_Some. congruence. }
  exists i. repeat split; auto.
  - now rewrite nth_error_app1.
  - intros j q Hj Hq. rewrite nth_error_app1 in Hq by lia. now apply (Hbefore j).
Qed.

Lemma matcher_inv_step (done : list string) (q : string)
    (results : list SearchResult) (seen : list string)
    (results' : list SearchResult) (seen' : list string) :
  matcher_inv kb done results seen ->
  scan_entries q kb results seen = Ok (results', seen') ->
  matcher_inv kb (done ++ [q]) results' seen'.
Proof.
  intros [Hseen Hnd Hres Hun] H.
  destruct (scan_entries_spec q kb _ _ _ _ H) as (added & -> & -> & Hnd' & Hadd & Hun').
  constructor.
  - intros k. rewrite map_app, !in_app_iff, <- in_rev, Hseen. tauto.
  - rewrite map_app. apply NoDup_app; auto.
    intros k Hk Hk'. apply in_map_iff in Hk'. destruct Hk' as (r & <- & Hr).
    destruct (Hadd r Hr) as (Hns & _). apply Hns. now apply Hseen.
  - intros r Hr. apply in_app_or in Hr. destruct Hr as [Hr | Hr].
    + now apply first_positive_more, Hres.
    + destruct (Hadd r Hr) as (Hns & Hin & Hq & Hsc & Hp).
      exists (List.length done). repeat split; auto.
      * rewrite nth_error_app2, Nat.sub_diag by lia. cbn. now rewrite Hq.
      * now rewrite Hq.
      * intros j q' Hj Hq'. rewrite nth_error_app1 in Hq' by lia.
        destruct (Hun (key r) (data r) q' Hin Hns (nth_error_In _ _ Hq'))
          as (s & Hs & Hz).
        exists s. split; [exact Hs|]. intros Hlt.
        apply Qltb_lt in Hlt. congruence.
  - intros k d q' Hin Hns Hq'. apply in_app_or in Hq'.
    destruct Hq' as [Hq' | [<- | []]].
    + apply (Hun k d q' Hin); [|exact Hq'].
      intros Hs. apply Hns. apply in_or_app. now right.
    + now apply Hun'.
Qed.

Lemma scan_queries_inv (queries : list string) :
  forall done results seen rs,
    matcher_inv kb done results seen ->
    scan_queries queries kb results seen = Ok rs ->
    NoDup (map key rs) /\
    forall r, In r rs -> first_positive (done ++ queries) kb r.
Proof.
  induction queries as [|q queries IH]; intros done results seen rs Hinv H;
    cbn in H.
  - inversion H; subst. rewrite app_nil_r. destruct Hinv. now split.
  - destruct (scan_entries q kb results seen) as [[results' seen'] | e] eqn:E;
      cbn in H; [|discriminate].
    replace (done ++ q :: queries) with ((done ++ [q]) ++ queries)
      by now rewrite <- app_assoc.
    apply (IH (done ++ [q]) results' seen' rs); [|exact H].
    now apply (matcher_inv_step done q results seen).
Qed.

End Matcher.

(** C5.  In the match set the matcher returns, no key occurs twice, and each
    result holds the score of its entry against the first variant, in the
    order of the variants, for which that score is positive. *)
Theorem matcher_first_variant_wins (queries : list string) (kb : KnowledgeBase)
    (rs : list SearchResult)
    (H : _search_knowledge_base queries kb = Ok rs) :
  NoDup (map key rs) /\
  forall r, In r rs -> first_positive queries kb r.
Proof.
  apply (scan_queries_inv kb queries [] [] [] rs); [|exact H].
  constructor; cbn; try tauto; try constructor.
Qed.

Lemma matcher_first_variant_wins_witness :
  NoDup (map key two_variants_results) /\
  forall r, In r two_variants_results -> first_positive two_variants bare_aphids r.
Proof.
  apply (matcher_first_variant_wins two_variants bare_aphids two_variants_results).
  reflexivity.
Defined.

(** ** Entries that score nothing *)

Section NoSharedCharacter.

Variables a b : list ascii.

Hypothesis disjoint : forall c, In c a -> ~ In c b.

Lemma indices_from_absent (c : ascii) (l : list ascii) (j : nat) :
  ~ In c l -> Difflib.indices_from j l c = [].
Proof.
  revert j. induction l as [|x l IH]; intros j Hc; cbn; [reflexivity|].
  destruct (Ascii.eqb x c) eqn:E.
  - apply Ascii.eqb_eq in E. subst. exfalso. apply Hc. now left.
  - apply IH. intros H. apply Hc. now right.
Qed.

Lemma b2j_absent (c : ascii) : ~ In c b -> Difflib.b2j b c = [].
Proof.
  intros Hc. unfold Difflib.b2j.
  destruct (Difflib.popular b c); [reflexivity|now apply indices_from_absent].
Qed.

Lemma rows_disjoint (blo bhi : nat) (is_ : list nat) (j2len : list (nat * nat))
    (bst : Difflib.best) :
  Difflib.rows a b blo bhi is_ j2len bst = bst.
Proof.
  revert j2len. induction is_ as [|i is_ IH]; intros j2len; cbn; [reflexivity|].
  destruct (nth_error a i) as [c|] eqn:E.
  - rewrite b2j_absent by (apply disjoint; eapply nth_error_In; exact E).
    cbn. apply IH.
  - cbn. apply IH.
Qed.

Lemma same_elt_disjoint (i j : nat) :
  Difflib.same_elt (nth_error a i) (nth_error b j) = false.
Proof.
  destruct (nth_error a i) as [c|] eqn:Ea; [|reflexivity].
  destruct (nth_error b j) as [d|] eqn:Eb; [|reflexivity].
  cbn. apply Ascii.eqb_neq. intros ->.
  apply (disjoint d); eapply nth_error_In; eassumption.
Qed.

Lemma find_longest_match_disjoint (alo ahi blo bhi : nat) :
  Difflib.bestsize (Difflib.find_longest_match a b alo ahi blo bhi) = 0.
Proof.
  unfold Difflib.find_longest_match. rewrite rows_disjoint. cbn.
  assert (L : Difflib.extend_left a b alo blo alo blo 0 = Difflib.Best alo blo 0).
  { destruct alo as [|i']; [reflexivity|]. destruct blo as [|j']; [reflexivity|].
    cbn [Difflib.extend_left]. now rewrite same_elt_disjoint, andb_false_r. }
  rewrite L. cbn.
  destruct (ahi - (alo + 0)) as [|fuel]; [reflexivity|].
  cbn [Difflib.extend_right]. now rewrite same_elt_disjoint, andb_false_r.
Qed.

Lemma matches_disjoint : Difflib.matches a b = 0.
Proof.
  unfold Difflib.matches. cbn [Difflib.matched].
  now rewrite find_longest_match_disjoint.
Qed.

End NoSharedCharacter.

Section StringFacts.

Lemma prefix_chars (p s : string) :
  String.prefix p s = true -> incl (list_ascii_of_string p) (list_ascii_of_string s).
Proof.
  revert p. induction s as [|b s IH]; intros [|a p] H; cbn in *;
    try discriminate; try apply incl_nil_l.
  destruct (ascii_dec a b) as [-> | _]; [|discriminate].
  intros c [<- | Hc]; [now left|]. right. now apply (IH p).
Qed.

Lemma contains_chars (p s : string) :
  PyStr.contains p s = true -> incl (list_ascii_of_string p) (list_ascii_of_string s).
Proof.
  induction s as [|b s IH]; cbn [PyStr.contains]; intros H.
  - rewrite orb_false_r in H. now apply prefix_chars in H.
  - apply orb_true_iff in H. destruct H as [H | H].
    + now apply prefix_chars in H.
    + intros c Hc. right. now apply IH.
Qed.

Lemma list_ascii_of_string_app (u v : string) :
  list_ascii_of_string (u ++ v)%string = list_ascii_of_string u ++ list_ascii_of_string v.
Proof. induction u as [|c u IH]; cbn; [reflexivity|now rewrite IH]. Qed.

(** The words of [s.split()] are not empty and are made of characters
    of [s]. *)
Lemma split_from_words (s : string) :
  forall cur w,
    match cur with Some u => u <> "" | None => True end ->
    In w (PyStr.split_from cur s) ->
    w <> "" /\
    incl (list_ascii_of_string w)
      (match cur with Some u => list_ascii_of_string u | None => [] end ++ list_ascii_of_string s).
Proof.
  induction s as [|c s IH]; intros cur w Hcur Hw; cbn in Hw.
  - destruct cur as [u|]; [|contradiction].
    destruct Hw as [<- | []]. split; [exact Hcur|]. now rewrite app_nil_r.
  - destruct (PyStr.is_space c).
    + destruct cur as [u|].
      * destruct Hw as [<- | Hw].
        -- split; [exact Hcur|]. now apply incl_appl.
        -- destruct (IH None w I Hw) as [Hn Hi]. split; [exact Hn|].
           intros x Hx. apply in_or_app. right. right. now apply Hi.
      * destruct (IH None w I Hw) as [Hn Hi]. split; [exact Hn|].
        intros x Hx. right. now apply Hi.
    + destruct cur as [u|].
      * destruct (IH (Some (u ++ String c "")%string) w) as [Hn Hi];
          [now destruct u|exact Hw|].
        split; [exact Hn|]. intros x Hx. apply Hi in Hx.
        rewrite list_ascii_of_string_app, <- app_assoc in Hx. exact Hx.
      * destruct (IH (Some (String c "")) w) as [Hn Hi];
          [discriminate|exact Hw|].
        split; [exact Hn|]. intros x Hx. now apply Hi in Hx.
Qed.

Lemma split_words (s w : string) :
  In w (PyStr.split s) -> w <> "" /\ incl (list_ascii_of_string w) (list_ascii_of_string s).
Proof. intros H. now apply (split_from_words s None w I). Qed.

Lemma occurs_in_In (s : string) (c : ascii) :
  occurs_in s c = true <-> In c (list_ascii_of_string s).
Proof.
  unfold occurs_in. rewrite existsb_exists. split.
  - intros (d & Hd & E). apply Ascii.eqb_eq in E. now subst.
  - intros H. exists c. split; [exact H|apply Ascii.eqb_refl].
Qed.

End StringFacts.

Section QuietScores.

Variable q : string.

Lemma key_quiet_disjoint (k : string) :
  key_quiet q k = true ->
  k <> "" /\ forall c, In c (list_ascii_of_string k) -> ~ In c (list_ascii_of_string q).
Proof.
  unfold key_quiet. intros H. apply andb_true_iff in H. destruct H as [Hne Hall].
  split.
  - intros ->. discriminate.
  - intros c Hc Hq. rewrite forallb_forall in Hall. specialize (Hall c Hc).
    apply occurs_in_In in Hq. rewrite Hq in Hall. discriminate.
Qed.

(** A string that is not empty and shares no character with [q] is not a
    substring of [q]. *)
Lemma disjoint_not_contained (w : string) :
  w <> "" -> (forall c, In c (list_ascii_of_string w) -> ~ In c (list_ascii_of_string q)) ->
  PyStr.contains w q = false.
Proof.
  intros Hne Hd. destruct (PyStr.contains w q) eqn:E; [|reflexivity].
  apply contains_chars in E. destruct w as [|c w]; [congruence|].
  exfalso. apply (Hd c); [now left|]. apply E. now left.
Qed.

Lemma ratio_disjoint (k : string) :
  k <> "" -> (forall c, In c (list_ascii_of_string k) -> ~ In c (list_ascii_of_string q)) ->
  (Difflib.ratio q k == 0)%Q.
Proof.
  intros Hne Hd. unfold Difflib.ratio.
  rewrite matches_disjoint by (intros c Hq Hk; exact (Hd c Hk Hq)).
  destruct k as [|c k]; [congruence|]. cbn [list_ascii_of_string List.length].
  rewrite Nat.add_succ_r. cbn [Difflib.calculate_ratio].
  unfold Qdiv. cbn [Z.of_nat Z.mul inject_Z]. apply Qmult_0_l.
Qed.

Lemma key_score_quiet (k : string) :
  key_quiet q k = true -> (key_score q k == 0)%Q.
Proof.
  intros H. apply key_quiet_disjoint in H. destruct H as [Hne Hd].
  unfold key_score. rewrite (disjoint_not_contained k Hne Hd).
  assert (W : existsb (fun word => PyStr.contains word q) (PyStr.split k) = false).
  { destruct (existsb _ _) eqn:E; [|reflexivity].
    apply existsb_exists in E. destruct E as (w & Hw & Hc).
    apply split_words in Hw. destruct Hw as [Hwn Hwi].
    rewrite disjoint_not_contained in Hc; [discriminate|exact Hwn|].
    intros c Hc'. apply Hd. now apply Hwi. }
  rewrite W, (ratio_disjoint k Hne Hd). reflexivity.
Qed.

Lemma add_matches_absent (w : Q) (items : list scalar) (s : Q) :
  forallb (absent q) items = true -> add_matches w q items s = Ok s.
Proof.
  revert s. induction items as [|x items IH]; intros s H; cbn in *; [reflexivity|].
  apply andb_true_iff in H. destruct H as [Hx Hi].
  destruct x as [|z|t]; try discriminate. cbn in *.
  apply negb_true_iff in Hx. rewrite Hx. now apply IH.
Qed.

Lemma common_words_none (solution_words : list string) :
  forallb (fun w => negb (PyStr.mem w (PyStr.split q))) solution_words = true ->
  common_words solution_words (PyStr.split q) = [].
Proof.
  intros H. unfold common_words.
  assert (D : forall l, incl l solution_words ->
              filter (fun w => PyStr.mem w (PyStr.split q)) l = []).
  { induction l as [|w l IH]; intros Hl; cbn; [reflexivity|].
    rewrite forallb_forall in H.
    assert (Hw : negb (PyStr.mem w (PyStr.split q)) = true)
      by (apply H, Hl; now left).
    apply negb_true_iff in Hw. rewrite Hw. apply IH.
    intros x Hx. apply Hl. now right. }
  apply D. clear D H. induction solution_words as [|w l IH]; cbn.
  - intros x [].
  - intros x [<- | Hx]; [now left|]. right. apply IH.
    apply filter_In in Hx. tauto.
Qed.

(** A quiet entry is scored without an exception, and its score is zero. *)
Lemma relevance_quiet (k : string) (d : entry_data) :
  quiet_entry q (k, d) = true ->
  exists s, _calculate_relevance q k d = Ok s /\ (s == 0)%Q.
Proof.
  unfold quiet_entry. cbn [fst snd]. intros H.
  apply andb_true_iff in H. destruct H as [Hk Hd].
  apply key_score_quiet in Hk. unfold _calculate_relevance.
  destruct d as [fields | v]; [|now exists (key_score q k)].
  apply andb_true_iff in Hd. destruct Hd as [Hd Hsol].
  apply andb_true_iff in Hd. destruct Hd as [Hd Hsym].
  apply andb_true_iff in Hd. destruct Hd as [Hcrops Hcat].
  assert (E1 : crops_score q fields (key_score q k) = Ok (key_score q k)).
  { unfold crops_score. destruct (lookup "crops" fields) as [[x | l]|];
      cbn in *; try discriminate; [|reflexivity].
    now apply add_matches_absent. }
  assert (E2 : category_score q fields (key_score q k) = Ok (key_score q k)).
  { unfold category_score. destruct (lookup "category" fields) as [[x | l]|];
      cbn in *; try discriminate; [|reflexivity].
    destruct x as [|z|t]; try discriminate. cbn in *.
    apply negb_true_iff in Hcat. now rewrite Hcat. }
  assert (E3 : symptoms_score q fields (key_score q k) = Ok (key_score q k)).
  { unfold symptoms_score. destruct (lookup "symptoms" fields) as [[x | l]|];
      cbn in *; try discriminate; [|reflexivity].
    now apply add_matches_absent. }
  rewrite E1. cbn [bind]. rewrite E2. cbn [bind]. rewrite E3. cbn [bind].
  unfold solution_score. destruct (lookup "solution" fields) as [[x | l]|];
    cbn in *; try discriminate; [|now exists (key_score q k)].
  destruct x as [|z|t]; try discriminate. cbn.
  rewrite (common_words_none _ Hsol). eexists. split; [reflexivity|].
  rewrite Hk. reflexivity.
Qed.

Lemma scan_entries_quiet (entries : KnowledgeBase) (results : list SearchResult)
    (seen : list string) :
  forallb (quiet_entry q) entries = true ->
  scan_entries q entries results seen = Ok (results, seen).
Proof.
  induction entries as [|[k d] entries IH]; intros H; cbn in *; [reflexivity|].
  apply andb_true_iff in H. destruct H as [He Hes].
  destruct (PyStr.mem k seen); [now apply IH|].
  destruct (relevance_quiet k d He) as (s & -> & Hz). cbn.
  rewrite (Qltb_zero s Hz). now apply IH.
Qed.

(** When the only variant is [q] and every entry is quiet, [search]
    returns an outcome without results or suggestions. *)
Lemma search_quiet (self : Engine) (query : string) (kb : KnowledgeBase)
    (context : option Context) :
  _expand_query (_preprocess_query query) = [q] ->
  forallb (quiet_entry q) kb = true ->
  exists o,
    fst (search self query kb context) = Ok o /\
    o_total_results o = 0 /\ o_results o = [] /\ o_suggestions o = [].
Proof.
  intros Hexp Hq.
  assert (R : ranked_results query kb context = Ok []).
  { unfold ranked_results. rewrite Hexp. unfold _search_knowledge_base.
    cbn [scan_queries]. rewrite (scan_entries_quiet kb [] [] Hq). cbn.
    unfold _rank_results. cbn [sorted_desc fold_right].
    destruct (String.eqb _ "general"); cbn; now destruct context as [[|]|]. }
  unfold search. rewrite R. cbn. eexists. split; [reflexivity|]. now cbn.
Qed.

End QuietScores.

(** ** The query ["xyzabc123"] *)

(** C2, as stated, fails.  The key ["abc"] is a substring of ["xyzabc123"]:
    the entry scores 10 + 5 + 3 * 1/2 and is returned with a suggestion.
    The key ["aphids"] is no substring of the query, but the two share the
    character [a]: the similarity ratio is 2/15, the score 6/15, and the
    entry is returned too. *)
Lemma gibberish_matches :
  abc_kb <> [] /\
  (exists o,
      fst (search new_engine "xyzabc123" abc_kb None) = Ok o /\
      o_total_results o = 1 /\
      map key (o_results o) = ["abc"] /\
      o_suggestions o = ["How to manage abc in wheat?"]) /\
  (Difflib.ratio "xyzabc123" "aphids" == 2 # 15)%Q /\
  exists o,
    fst (search new_engine "xyzabc123" aphids_kb None) = Ok o /\
    o_total_results o = 1 /\
    map key (o_results o) = ["aphids"] /\
    o_suggestions o
    = ["How to manage aphids in mustard?"; "How to manage aphids in wheat?"].
Proof.
  split; [discriminate|]. split.
  - eexists. split; [vm_compute; reflexivity|]. repeat split.
  - split; [reflexivity|].
    eexists. split; [vm_compute; reflexivity|]. repeat split.
Qed.

(** C2, amended.  When every entry of the mapping is quiet for
    ["xyzabc123"] (its key is not empty and shares no character with the
    query, none of its crops, category and symptoms is a substring of the
    query, no word of its solution is the query), [search] returns no
    result and no suggestion. *)
Theorem gibberish_no_match (self : Engine) (kb : KnowledgeBase)
    (context : option Context)
    (Hquiet : forallb (quiet_entry "xyzabc123") kb = true) :
  exists o,
    fst (search self "xyzabc123" kb context) = Ok o /\
    o_total_results o = 0 /\ o_results o = [] /\ o_suggestions o = [].
Proof.
  assert (Hexp : _expand_query (_preprocess_query "xyzabc123") = ["xyzabc123"])
    by reflexivity.
  destruct (search_quiet "xyzabc123" self "xyzabc123" kb context Hexp Hquiet)
    as (o & Ho & Htotal & Hresults & Hsuggestions).
  exists o. auto.
Qed.

Lemma gibberish_no_match_witness :
  exists o,
    fst (search new_engine "xyzabc123" mildew_kb None) = Ok o /\
    o_total_results o = 0 /\ o_results o = [] /\ o_suggestions o = [].
Proof.
  apply (gibberish_no_match new_engine mildew_kb None). reflexivity.
Defined.

(** ** Empty and blank queries *)

Section BlankQuery.

Lemma space_not_upper (c : ascii) :
  PyStr.is_space c = true -> PyStr.lower_char c = c.
Proof.
  destruct c as [[] [] [] [] [] [] [] []]; intros H;
    first [reflexivity | discriminate H].
Qed.

Lemma lstrip_lower_blank (query : string) :
  blank query = true -> PyStr.lstrip (PyStr.lower query) = "".
Proof.
  unfold blank. induction query as [|c query IH]; cbn; intros H; [reflexivity|].
  apply andb_true_iff in H. destruct H as [Hc Hq].
  rewrite (space_not_upper c Hc), Hc. now apply IH.
Qed.

Lemma preprocess_blank (query : string) :
  blank query = true -> _preprocess_query query = "".
Proof.
  intros H. unfold _preprocess_query, PyStr.strip.
  now rewrite (lstrip_lower_blank query H).
Qed.

Lemma nonempty_absent (x : scalar) : nonempty_str x = true -> absent "" x = true.
Proof. destruct x as [|z|[|c s]]; cbn; intros H; congruence. Qed.

Lemma nonempty_all_absent (v : option value) :
  nonempty_strs v = true -> all_absent "" v = true.
Proof.
  destruct v as [[x | l]|]; cbn; intros H; try congruence.
  rewrite forallb_forall in *. intros x Hx. now apply nonempty_absent, H.
Qed.

Lemma plain_quiet (e : string * entry_data) :
  plain_entry e = true -> quiet_entry "" e = true.
Proof.
  unfold plain_entry, quiet_entry. destruct e as [k d]. cbn [fst snd].
  intros H. apply andb_true_iff in H. destruct H as [Hk Hd].
  apply andb_true_iff. split.
  - unfold key_quiet. rewrite Hk. cbn. apply forallb_forall. reflexivity.
  - destruct d as [fields | v]; [|reflexivity].
    apply andb_true_iff in Hd. destruct Hd as [Hd Hsol].
    apply andb_true_iff in Hd. destruct Hd as [Hd Hsym].
    apply andb_true_iff in Hd. destruct Hd as [Hcrops Hcat].
    rewrite (nonempty_all_absent _ Hcrops), (nonempty_all_absent _ Hsym).
    rewrite andb_true_l, andb_true_r. apply andb_true_iff. split.
    + destruct (lookup "category" fields) as [[x | l]|]; cbn in *; try congruence.
      now apply nonempty_absent.
    + destruct (lookup "solution" fields) as [[[|z|s] | l]|]; cbn in *;
        try congruence.
      apply forallb_forall. reflexivity.
Qed.

End BlankQuery.

(** C10.  On a mapping of plain entries (keys, crops, categories and
    symptoms are non-empty strings, solutions are strings) a query that is
    empty or made of whitespace only returns no result and no suggestion. *)
Theorem blank_query_no_match (self : Engine) (query : string) (kb : KnowledgeBase)
    (context : option Context)
    (Hblank : blank query = true)
    (Hplain : forallb plain_entry kb = true) :
  exists o,
    fst (search self query kb context) = Ok o /\
    o_total_results o = 0 /\ o_results o = [] /\ o_suggestions o = [].
Proof.
  apply (search_quiet "").
  - now rewrite (preprocess_blank query Hblank).
  - rewrite forallb_forall in *. intros e He. now apply plain_quiet, Hplain.
Qed.

Lemma blank_query_no_match_witness :
  exists o,
    fst (search new_engine "   " aphids_kb None) = Ok o /\
    o_total_results o = 0 /\ o_results o = [] /\ o_suggestions o = [].
Proof.
  apply (blank_query_no_match new_engine "   " aphids_kb None); reflexivity.
Defined.

(** ** The query ["How to control aphids in mustard?"] *)

Lemma search_ok (self : Engine) (query : string) (kb : KnowledgeBase)
    (context : option Context) (ranked : list SearchResult)
    (suggestions : list string) :
  ranked_results query kb context = Ok ranked ->
  _generate_suggestions query ranked = Ok suggestions ->
  fst (search self query kb context)
  = Ok (mkOutcome query (_preprocess_query query)
          (_extract_intent (_preprocess_query query))
          (firstn 10 ranked) (List.length ranked) (S (clock self)) suggestions).
Proof. intros R G. unfold search. rewrite R. cbn. now rewrite G. Qed.

(** [\baphid\b] does not match inside ["aphids"]: no pattern of
    ["pest_control"] matches the normalized query. *)
Lemma aphid_pattern_misses_plural :
  Re.search (Re.two_groups (Re.Lit "control") (Re.Lit "aphid"))
    "how to control aphids in mustard?" = false /\
  Re.search (Re.two_groups (Re.Lit "control") (Re.Lit "aphid"))
    "how to control aphid in mustard?" = true /\
  forallb
    (fun pattern => negb (Re.search pattern "how to control aphids in mustard?"))
    (flat_map snd query_patterns) = true.
Proof. repeat split. Qed.

(** C3.  Against the mapping that holds the ["aphids"] entry, the query
    returns ["aphids"] as the top result, with score 777/39, which is more
    than 14, but the topic detected is ["general"] and not
    ["pest_control"]; with the singular ["aphid"] in the query the topic is
    ["pest_control"]. *)
Theorem aphids_query_outcome (self : Engine) (context : option Context) :
  (exists o top,
      fst (search self aphids_query aphids_kb context) = Ok o /\
      o_results o = [top] /\ key top = "aphids" /\
      (score top == 777 # 39)%Q /\ (14 < score top)%Q /\
      intent_type (o_intent o) = "general" /\
      intent_type (o_intent o) <> "pest_control") /\
  intent_type (_extract_intent (_preprocess_query "How to control aphid in mustard?"))
  = "pest_control".
Proof.
  split; [|reflexivity].
  assert (R : exists top,
             ranked_results aphids_query aphids_kb context = Ok [top] /\
             key top = "aphids" /\ (score top == 777 # 39)%Q /\
             data top = aphids_entry).
  { destruct context as [[|b c]|]; eexists;
      (split; [vm_compute; reflexivity|]); repeat split. }
  destruct R as (top & R & Hk & Hs & Hd).
  assert (G : exists suggestions,
             _generate_suggestions aphids_query [top] = Ok suggestions).
  { unfold _generate_suggestions, collect_suggestions, suggestions_of, firstn.
    rewrite Hd. cbn. eexists. reflexivity. }
  destruct G as (suggestions & G).
  eexists. exists top. split; [exact (search_ok _ _ _ _ _ _ R G)|].
  cbn [o_results o_intent firstn]. repeat split; try assumption.
  - rewrite Hs. reflexivity.
  - discriminate.
Qed.

(** ** Malformed entries *)

Section Malformed.

Variables (p : string) (k : string) (d : entry_data) (e : exn).
Variable post : KnowledgeBase.

Hypothesis Hraise : _calculate_relevance p k d = Raise e.


End Malformed.




(** ** The fuel of [Difflib.matched]

    A match found in [a[alo:ahi]] lies inside that range, so both recursive
    calls of [get_matching_blocks] are on strictly shorter ranges and the
    fuel [S (ahi - alo)] is never used up. *)

Section MatchBounds.

Variables a b : list ascii.
Variables alo blo bhi : nat.

Lemma get_below (i j : nat) (j2len : list (nat * nat)) :
  alo <= i -> lengths_below alo i j2len -> alo + Difflib.get j j2len <= i.
Proof.
  intros Hi. induction j2len as [|[j' k] rest IH]; intros H; cbn; [lia|].
  destruct (j' =? j).
  - apply (H j' k). now left.
  - apply IH. intros j0 k0 H0. apply (H j0 k0). now right.
Qed.

Lemma row_within (i : nat) (j2len : list (nat * nat)) (js : list nat) :
  alo <= i -> lengths_below alo i j2len ->
  forall newj2len bst,
    lengths_below alo (S i) newj2len -> within alo (S i) bst ->
    lengths_below alo (S i) (fst (Difflib.row blo bhi i j2len js newj2len bst)) /\
    within alo (S i) (snd (Difflib.row blo bhi i j2len js newj2len bst)).
Proof.
  intros Hi Hj. induction js as [|j js IH]; intros newj2len bst Hn Hb;
    cbn [Difflib.row].
  - now split.
  - destruct (j <? blo); [now apply IH|].
    destruct (bhi <=? j); [now split|].
    set (k := match j with 0 => 0 | S j' => Difflib.get j' j2len end + 1).
    assert (Hk : alo + k <= S i).
    { unfold k. destruct j as [|j']; [lia|].
      pose proof (get_below i j' j2len Hi Hj). lia. }
    apply IH.
    + intros j0 k0 [E | H0]; [inversion E; subst; exact Hk|now apply (Hn j0)].
    + destruct (Difflib.bestsize bst <? k); [|exact Hb].
      unfold within. cbn. lia.
Qed.

Lemma rows_within (n : nat) :
  forall i j2len bst,
    alo <= i -> lengths_below alo i j2len -> within alo i bst ->
    within alo (i + n) (Difflib.rows a b blo bhi (seq i n) j2len bst).
Proof.
  induction n as [|n IH]; intros i j2len bst Hi Hj Hb;
    cbn [seq Difflib.rows].
  - now rewrite Nat.add_0_r.
  - set (js := match nth_error a i with Some c => Difflib.b2j b c | None => [] end).
    assert (Hb' : within alo (S i) bst) by (unfold within in *; lia).
    assert (Hn : lengths_below alo (S i) []) by (intros j k []).
    destruct (row_within i j2len js Hi Hj [] bst Hn Hb') as [Hj1 Hb1].
    destruct (Difflib.row blo bhi i j2len js [] bst) as [newj2len bst'].
    rewrite <- Nat.add_succ_comm. apply IH; [lia|exact Hj1|exact Hb1].
Qed.

Lemma extend_left_within (ahi i : nat) :
  forall j k,
    within alo ahi (Difflib.Best i j k) ->
    within alo ahi (Difflib.extend_left a b alo blo i j k).
Proof.
  induction i as [|i IH]; intros j k H; cbn [Difflib.extend_left]; [exact H|].
  destruct j as [|j]; [exact H|].
  destruct ((alo <? S i) && (blo <? S j)
            && Difflib.same_elt (nth_error a i) (nth_error b j)) eqn:E;
    [|exact H].
  apply IH. apply andb_true_iff in E. destruct E as [E _].
  apply andb_true_iff in E. destruct E as [E _]. apply Nat.ltb_lt in E.
  unfold within in *. cbn in *. lia.
Qed.

Lemma extend_right_within (ahi fuel : nat) :
  forall i j k,
    within alo ahi (Difflib.Best i j k) ->
    within alo ahi (Difflib.extend_right a b fuel ahi bhi i j k).
Proof.
  induction fuel as [|fuel IH]; intros i j k H; cbn [Difflib.extend_right];
    [exact H|].
  destruct ((i + k <? ahi) && (j + k <? bhi)
            && Difflib.same_elt (nth_error a (i + k)) (nth_error b (j + k))) eqn:E;
    [|exact H].
  apply IH. apply andb_true_iff in E. destruct E as [E _].
  apply andb_true_iff in E. destruct E as [E _]. apply Nat.ltb_lt in E.
  unfold within in *. cbn in *. lia.
Qed.

Lemma find_longest_match_within (ahi : nat) :
  alo <= ahi -> within alo ahi (Difflib.find_longest_match a b alo ahi blo bhi).
Proof.
  intros H. unfold Difflib.find_longest_match.
  set (m := Difflib.rows a b blo bhi (seq alo (ahi - alo)) [] (Difflib.Best alo blo 0)).
  assert (Hm : within alo ahi m).
  { replace ahi with (alo + (ahi - alo)) at 1 by lia.
    apply rows_within; [lia|intros j k []|unfold within; cbn; lia]. }
  set (m' := Difflib.extend_left a b alo blo _ _ _).
  assert (Hm' : within alo ahi m').
  { apply extend_left_within. now destruct m. }
  apply extend_right_within. now destruct m'.
Qed.

End MatchBounds.

(** More fuel than [ahi - alo] changes nothing. *)
Lemma matched_fuel (a b : list ascii) (fuel : nat) :
  forall fuel' alo ahi blo bhi,
    alo <= ahi -> ahi - alo < fuel -> ahi - alo < fuel' ->
    Difflib.matched a b fuel alo ahi blo bhi
    = Difflib.matched a b fuel' alo ahi blo bhi.
Proof.
  induction fuel as [|fuel IH]; intros fuel' alo ahi blo bhi Hle Hf Hf'; [lia|].
  destruct fuel' as [|fuel']; [lia|]. cbn [Difflib.matched].
  pose proof (find_longest_match_within a b alo blo bhi ahi Hle) as [Hlo Hhi].
  set (m := Difflib.find_longest_match a b alo ahi blo bhi) in *.
  destruct (Difflib.bestsize m =? 0) eqn:Ek; [reflexivity|].
  apply Nat.eqb_neq in Ek. f_equal; [f_equal|].
  - destruct ((alo <? Difflib.besti m) && (blo <? Difflib.bestj m)) eqn:E;
      [|reflexivity].
    apply andb_true_iff in E. destruct E as [E _]. apply Nat.ltb_lt in E.
    apply IH; lia.
  - destruct ((Difflib.besti m + Difflib.bestsize m <? ahi)
              && (Difflib.bestj m + Difflib.bestsize m <? bhi)) eqn:E;
      [|reflexivity].
    apply andb_true_iff in E. destruct E as [E _]. apply Nat.ltb_lt in E.
    apply IH; lia.
Qed.

(** [Difflib.matches] does not depend on the fuel it is written with. *)
Lemma matches_fuel (a b : list ascii) (fuel : nat) :
  List.length a < fuel ->
  Difflib.matches a b = Difflib.matched a b fuel 0 (List.length a) 0 (List.length b).
Proof. intros H. unfold Difflib.matches. apply matched_fuel; lia. Qed.

(** * Further properties of the engine *)

(** ** Bounds of the relevance score *)

Section MatchBoundsB.

Variables a b : list ascii.
Variables blo bhi : nat.

Lemma get_ends (j : nat) (j2len : list (nat * nat)) :
  blo <= S j -> ends_within blo bhi j2len -> blo + Difflib.get j j2len <= j + 1.
Proof.
  intros Hj. induction j2len as [|[j' k] rest IH]; intros H; cbn; [lia|].
  destruct (Nat.eqb_spec j' j) as [-> | _].
  - apply (H j k). now left.
  - apply IH. intros j0 k0 H0. apply (H j0 k0). now right.
Qed.

Lemma row_within_b (i : nat) (j2len : list (nat * nat)) (js : list nat) :
  ends_within blo bhi j2len ->
  forall newj2len bst,
    ends_within blo bhi newj2len -> within_b blo bhi bst ->
    ends_within blo bhi (fst (Difflib.row blo bhi i j2len js newj2len bst)) /\
    within_b blo bhi (snd (Difflib.row blo bhi i j2len js newj2len bst)).
Proof.
  intros Hj. induction js as [|j js IH]; intros newj2len bst Hn Hb;
    cbn [Difflib.row].
  - now split.
  - destruct (Nat.ltb_spec j blo) as [_ | Hlo]; [now apply IH|].
    destruct (Nat.leb_spec bhi j) as [_ | Hhi]; [now split|].
    set (k := match j with 0 => 0 | S j' => Difflib.get j' j2len end + 1).
    assert (Hk : blo + k <= j + 1).
    { unfold k. destruct j as [|j']; [lia|].
      pose proof (get_ends j' j2len Hlo Hj). lia. }
    assert (Hk1 : 1 <= k) by (unfold k; lia).
    apply IH.
    + intros j0 k0 [E | H0]; [inversion E; subst; split; lia|now apply (Hn j0)].
    + destruct (Difflib.bestsize bst <? k); [|exact Hb].
      unfold within_b. cbn. lia.
Qed.

Lemma rows_within_b (is_ : list nat) :
  forall j2len bst,
    ends_within blo bhi j2len -> within_b blo bhi bst ->
    within_b blo bhi (Difflib.rows a b blo bhi is_ j2len bst).
Proof.
  induction is_ as [|i is_ IH]; intros j2len bst Hj Hb; cbn [Difflib.rows];
    [exact Hb|].
  set (js := match nth_error a i with Some c => Difflib.b2j b c | None => [] end).
  assert (Hn : ends_within blo bhi []) by (intros j k []).
  destruct (row_within_b i j2len js Hj [] bst Hn Hb) as [Hj1 Hb1].
  destruct (Difflib.row blo bhi i j2len js [] bst) as [newj2len bst'].
  now apply IH.
Qed.

Lemma extend_left_within_b (alo i : nat) :
  forall j k,
    within_b blo bhi (Difflib.Best i j k) ->
    within_b blo bhi (Difflib.extend_left a b alo blo i j k).
Proof.
  induction i as [|i IH]; intros j k H; cbn [Difflib.extend_left]; [exact H|].
  destruct j as [|j]; [exact H|].
  destruct ((alo <? S i) && (blo <? S j)
            && Difflib.same_elt (nth_error a i) (nth_error b j)) eqn:E;
    [|exact H].
  apply IH. apply andb_true_iff in E. destruct E as [E _].
  apply andb_true_iff in E. destruct E as [_ E]. apply Nat.ltb_lt in E.
  unfold within_b in *. cbn in *. lia.
Qed.

Lemma extend_right_within_b (ahi fuel : nat) :
  forall i j k,
    within_b blo bhi (Difflib.Best i j k) ->
    within_b blo bhi (Difflib.extend_right a b fuel ahi bhi i j k).
Proof.
  induction fuel as [|fuel IH]; intros i j k H; cbn [Difflib.extend_right];
    [exact H|].
  destruct ((i + k <? ahi) && (j + k <? bhi)
            && Difflib.same_elt (nth_error a (i + k)) (nth_error b (j + k))) eqn:E;
    [|exact H].
  apply IH. apply andb_true_iff in E. destruct E as [E _].
  apply andb_true_iff in E. destruct E as [_ E]. apply Nat.ltb_lt in E.
  unfold within_b in *. cbn in *. lia.
Qed.

Lemma find_longest_match_within_b (alo ahi : nat) :
  blo <= bhi -> within_b blo bhi (Difflib.find_longest_match a b alo ahi blo bhi).
Proof.
  intros H. unfold Difflib.find_longest_match.
  set (m := Difflib.rows a b blo bhi (seq alo (ahi - alo)) [] (Difflib.Best alo blo 0)).
  assert (Hm : within_b blo bhi m).
  { apply rows_within_b; [intros j k []|unfold within_b; cbn; lia]. }
  set (m' := Difflib.extend_left a b alo blo _ _ _).
  assert (Hm' : within_b blo bhi m').
  { apply extend_left_within_b. now destruct m. }
  apply extend_right_within_b. now destruct m'.
Qed.

End MatchBoundsB.

(** The blocks found in [a[alo:ahi]] and [b[blo:bhi]] do not overlap: their
    sizes add up to no more than either range. *)
Lemma matched_le (a b : list ascii) (fuel : nat) :
  forall alo ahi blo bhi,
    alo <= ahi -> blo <= bhi ->
    Difflib.matched a b fuel alo ahi blo bhi <= ahi - alo /\
    Difflib.matched a b fuel alo ahi blo bhi <= bhi - blo.
Proof.
  induction fuel as [|fuel IH]; intros alo ahi blo bhi Ha Hb;
    cbn [Difflib.matched]; [lia|].
  pose proof (find_longest_match_within a b alo blo bhi ahi Ha) as [Ha1 Ha2].
  pose proof (find_longest_match_within_b a b blo bhi alo ahi Hb) as [Hb1 Hb2].
  set (m := Difflib.find_longest_match a b alo ahi blo bhi) in *.
  destruct (Difflib.bestsize m =? 0); [lia|].
  assert (L : (if (alo <? Difflib.besti m) && (blo <? Difflib.bestj m)
               then Difflib.matched a b fuel alo (Difflib.besti m) blo (Difflib.bestj m)
               else 0) <= Difflib.besti m - alo /\
              (if (alo <? Difflib.besti m) && (blo <? Difflib.bestj m)
               then Difflib.matched a b fuel alo (Difflib.besti m) blo (Difflib.bestj m)
               else 0) <= Difflib.bestj m - blo).
  { destruct ((alo <? Difflib.besti m) && (blo <? Difflib.bestj m)); [|lia].
    apply IH; lia. }
  assert (R : (if (Difflib.besti m + Difflib.bestsize m <? ahi)
                  && (Difflib.bestj m + Difflib.bestsize m <? bhi)
               then Difflib.matched a b fuel (Difflib.besti m + Difflib.bestsize m)
                      ahi (Difflib.bestj m + Difflib.bestsize m) bhi
               else 0) <= ahi - (Difflib.besti m + Difflib.bestsize m) /\
              (if (Difflib.besti m + Difflib.bestsize m <? ahi)
                  && (Difflib.bestj m + Difflib.bestsize m <? bhi)
               then Difflib.matched a b fuel (Difflib.besti m + Difflib.bestsize m)
                      ahi (Difflib.bestj m + Difflib.bestsize m) bhi
               else 0) <= bhi - (Difflib.bestj m + Difflib.bestsize m)).
  { destruct ((Difflib.besti m + Difflib.bestsize m <? ahi)
              && (Difflib.bestj m + Difflib.bestsize m <? bhi)); [|lia].
    apply IH; lia. }
  lia.
Qed.

Lemma ratio_bounds (q k : string) :
  (0 <= Difflib.ratio q k <= 1)%Q.
Proof.
  unfold Difflib.ratio.
  set (la := list_ascii_of_string q). set (lb := list_ascii_of_string k).
  destruct (matched_le la lb (S (List.length la)) 0 (List.length la) 0
              (List.length lb)) as [Ha Hb]; try lia.
  fold (Difflib.matches la lb) in Ha, Hb.
  set (m := Difflib.matches la lb) in *.
  destruct (List.length la + List.length lb) as [|n] eqn:E;
    cbn [Difflib.calculate_ratio]; [split; discriminate|].
  assert (Hpos : (0 < inject_Z (Z.of_nat (S n)))%Q).
  { change 0%Q with (inject_Z 0). rewrite <- Zlt_Qlt. lia. }
  split.
  - apply Qle_shift_div_l; [exact Hpos|]. rewrite Qmult_0_l.
    change 0%Q with (inject_Z 0). rewrite <- Zle_Qle. lia.
  - apply Qle_shift_div_r; [exact Hpos|]. rewrite Qmult_1_l.
    rewrite <- Zle_Qle. lia.
Qed.

Lemma key_score_bounds (q k : string) : (0 <= key_score q k <= 18)%Q.
Proof.
  unfold key_score. pose proof (ratio_bounds q k) as [H0 H1].
  destruct (PyStr.contains k q);
    destruct (existsb (fun word => PyStr.contains word q) (PyStr.split k));
    split; lra.
Qed.

Lemma add_matches_grows (w : Q) (q : string) (items : list scalar) :
  (0 <= w)%Q ->
  forall s r, add_matches w q items s = Ok r -> (s <= r)%Q.
Proof.
  intros Hw. induction items as [|x items IH]; intros s r H; cbn in H.
  - inversion H; subst. apply Qle_refl.
  - destruct (scalar_in x q) as [hit | e]; cbn in H; [|discriminate].
    apply IH in H. destruct hit; lra.
Qed.

(** X1.  The relevance score is never negative: the part that reads the key
    lies between 0 and 18, and the fields of the entry only add to it. *)
Theorem relevance_bounds (q k : string) (d : entry_data) (s : Q)
    (H : _calculate_relevance q k d = Ok s) :
  (0 <= key_score q k <= 18)%Q /\ (key_score q k <= s)%Q /\ (0 <= s)%Q.
Proof.
  pose proof (key_score_bounds q k) as [H0 H18].
  cut (key_score q k <= s)%Q; [intros Hs; repeat split; lra|].
  unfold _calculate_relevance in H. destruct d as [fields | v];
    [|inversion H; subst; apply Qle_refl].
  destruct (crops_score q fields (key_score q k)) as [s1 | e] eqn:E1;
    cbn in H; [|discriminate].
  destruct (category_score q fields s1) as [s2 | e] eqn:E2; cbn in H; [|discriminate].
  destruct (symptoms_score q fields s2) as [s3 | e] eqn:E3; cbn in H; [|discriminate].
  assert (L1 : (key_score q k <= s1)%Q).
  { unfold crops_score in E1. destruct (lookup "crops" fields) as [c|].
    - destruct (iterate c) as [items | e]; cbn in E1; [|discriminate].
      apply (add_matches_grows 4 q items); [discriminate|exact E1].
    - inversion E1; subst. apply Qle_refl. }
  assert (L2 : (s1 <= s2)%Q).
  { unfold category_score in E2. destruct (lookup "category" fields) as [c|].
    - destruct (value_in c q) as [[|] | e]; cbn in E2; inversion E2; subst; lra.
    - inversion E2; subst. apply Qle_refl. }
  assert (L3 : (s2 <= s3)%Q).
  { unfold symptoms_score in E3. destruct (lookup "symptoms" fields) as [c|].
    - destruct (iterate c) as [items | e]; cbn in E3; [|discriminate].
      apply (add_matches_grows 2 q items); [discriminate|exact E3].
    - inversion E3; subst. apply Qle_refl. }
  assert (L4 : (s3 <= s)%Q).
  { unfold solution_score in H. destruct (lookup "solution" fields) as [c|].
    - destruct (value_lower c) as [lowered | e]; cbn in H; [|discriminate].
      inversion H; subst.
      assert (0 <= Q_of_nat (List.length
                      (common_words (PyStr.split lowered) (PyStr.split q))))%Q.
      { unfold Q_of_nat. change 0%Q with (inject_Z 0). rewrite <- Zle_Qle. lia. }
      lra.
    - inversion H; subst. apply Qle_refl. }
  lra.
Qed.

Lemma relevance_bounds_witness :
  (0 <= key_score "how to control aphids in mustard?" "aphids" <= 18)%Q /\
  (key_score "how to control aphids in mustard?" "aphids" <= wheat_only_score)%Q /\
  (0 <= wheat_only_score)%Q.
Proof.
  apply (relevance_bounds "how to control aphids in mustard?" "aphids"
           (Dict wheat_only) wheat_only_score).
  reflexivity.
Defined.

(** ** Substrings and the two key tests *)

Section Substrings.

Lemma string_app_assoc (u v w : string) :
  ((u ++ v) ++ w)%string = (u ++ (v ++ w))%string.
Proof. induction u as [|c u IH]; cbn; [reflexivity|now rewrite IH]. Qed.

Lemma string_app_nil_r (u : string) : (u ++ "")%string = u.
Proof. induction u as [|c u IH]; cbn; [reflexivity|now rewrite IH]. Qed.

Lemma prefix_iff (p s : string) :
  String.prefix p s = true <-> exists post, s = (p ++ post)%string.
Proof.
  revert p. induction s as [|b s IH]; intros [|a p]; cbn.
  - split; [now exists ""|reflexivity].
  - split; [discriminate|]. intros (post & H). discriminate.
  - split; [now exists (String b s)|reflexivity].
  - destruct (ascii_dec a b) as [-> | Hne].
    + rewrite IH. split; intros (post & H); exists post.
      * now rewrite H.
      * now inversion H.
    + split; [discriminate|]. intros (post & H). inversion H. congruence.
Qed.

(** [needle in hay] holds exactly when [hay] is [pre + needle + post]. *)
Lemma contains_iff (needle hay : string) :
  PyStr.contains needle hay = true <->
  exists pre post, hay = (pre ++ needle ++ post)%string.
Proof.
  induction hay as [|b hay IH]; cbn [PyStr.contains].
  - rewrite orb_false_r, prefix_iff. split.
    + intros (post & H). now exists "", post.
    + intros ([|c pre] & post & H); [now exists post|discriminate].
  - rewrite orb_true_iff, prefix_iff, IH. split.
    + intros [(post & H) | (pre & post & H)].
      * now exists "", post.
      * exists (String b pre), post. cbn. now rewrite H.
    + intros ([|c pre] & post & H).
      * left. now exists post.
      * right. inversion H. now exists pre, post.
Qed.

Lemma contains_trans (u v w : string) :
  PyStr.contains u v = true -> PyStr.contains v w = true ->
  PyStr.contains u w = true.
Proof.
  rewrite !contains_iff. intros (a & b & ->) (c & d & ->).
  exists (c ++ a)%string, (b ++ d)%string.
  now rewrite !string_app_assoc.
Qed.

(** Every word of [s.split()] is a substring of [s]. *)
Lemma split_from_substring (s : string) :
  forall cur w,
    In w (PyStr.split_from cur s) ->
    exists pre post,
      (match cur with Some u => u | None => "" end ++ s)%string
      = (pre ++ w ++ post)%string.
Proof.
  induction s as [|c s IH]; intros cur w Hw; cbn [PyStr.split_from] in Hw.
  - destruct cur as [u|]; [|contradiction]. destruct Hw as [<- | []].
    exists "", "". cbn. now rewrite !string_app_nil_r.
  - destruct (PyStr.is_space c).
    + destruct cur as [u|].
      * destruct Hw as [<- | Hw]; [now exists "", (String c s)|].
        destruct (IH None w Hw) as (pre & post & H). cbn in H.
        exists (u ++ String c pre)%string, post.
        rewrite string_app_assoc. cbn. now rewrite H.
      * destruct (IH None w Hw) as (pre & post & H). cbn in H.
        exists (String c pre), post. cbn. now rewrite H.
    + destruct cur as [u|].
      * destruct (IH _ w Hw) as (pre & post & H). exists pre, post.
        rewrite <- H, string_app_assoc. reflexivity.
      * destruct (IH _ w Hw) as (pre & post & H). exists pre, post.
        now rewrite <- H.
Qed.

Lemma split_substring (s w : string) :
  In w (PyStr.split s) -> PyStr.contains w s = true.
Proof.
  intros H. apply contains_iff. exact (split_from_substring s None w H).
Qed.

Lemma split_from_some (s u : string) : PyStr.split_from (Some u) s <> [].
Proof.
  revert u. induction s as [|c s IH]; intros u; cbn; [discriminate|].
  destruct (PyStr.is_space c); [discriminate|apply IH].
Qed.

(** A string with a character that is not whitespace has a word. *)
Lemma split_not_nil (s : string) :
  forallb PyStr.is_space (list_ascii_of_string s) = false -> PyStr.split s <> [].
Proof.
  unfold PyStr.split. induction s as [|c s IH]; cbn; [discriminate|].
  destruct (PyStr.is_space c); cbn; [exact IH|intros _; apply split_from_some].
Qed.

End Substrings.

(** X2.  The two tests on the key are tiered.  When the whole key occurs in
    the query and is not blank, one of its words occurs too, and the key
    part of the score is between 15 and 18; when neither the key nor any of
    its words occurs, it is at most 3. *)
Theorem key_score_tiers (q k : string) :
  (PyStr.contains k q = true -> blank k = false ->
   (15 <= key_score q k <= 18)%Q) /\
  (PyStr.contains k q = false ->
   existsb (fun word => PyStr.contains word q) (PyStr.split k) = false ->
   (0 <= key_score q k <= 3)%Q).
Proof.
  pose proof (ratio_bounds q k) as [H0 H1]. split.
  - intros Hk Hb. unfold key_score. rewrite Hk.
    assert (W : existsb (fun word => PyStr.contains word q) (PyStr.split k) = true).
    { destruct (PyStr.split k) as [|w ws] eqn:E.
      - exfalso. exact (split_not_nil k Hb E).
      - cbn. apply orb_true_iff. left.
        apply (contains_trans w k q); [|exact Hk].
        apply split_substring. rewrite E. now left. }
    rewrite W. split; lra.
  - intros Hk Hw. unfold key_score. rewrite Hk, Hw. split; lra.
Qed.

Lemma key_score_tiers_witness :
  (15 <= key_score "how to control aphids in mustard?" "aphids" <= 18)%Q /\
  (0 <= key_score "xyzabc123" "aphids" <= 3)%Q.
Proof.
  split.
  - apply (proj1 (key_score_tiers "how to control aphids in mustard?" "aphids"));
      reflexivity.
  - apply (proj2 (key_score_tiers "xyzabc123" "aphids")); reflexivity.
Defined.

(** ** Completeness of the matcher *)

Lemma scan_queries_inv_end (kb : KnowledgeBase) (queries : list string) :
  forall done results seen rs,
    matcher_inv kb done results seen ->
    scan_queries queries kb results seen = Ok rs ->
    exists seen', matcher_inv kb (done ++ queries) rs seen'.
Proof.
  induction queries as [|q queries IH]; intros done results seen rs Hinv H;
    cbn in H.
  - inversion H; subst. rewrite app_nil_r. now exists seen.
  - destruct (scan_entries q kb results seen) as [[results' seen'] | e] eqn:E;
      cbn in H; [|discriminate].
    replace (done ++ q :: queries) with ((done ++ [q]) ++ queries)
      by now rewrite <- app_assoc.
    apply (IH (done ++ [q]) results' seen' rs); [|exact H].
    now apply (matcher_inv_step kb done q results seen).
Qed.

(** X3.  The matcher loses no match: when it returns, every entry of the
    mapping that scores more than 0 against some variant has a result, and
    with distinct keys in the mapping that result carries the entry's
    data. *)
Theorem matcher_complete (queries : list string) (kb : KnowledgeBase)
    (rs : list SearchResult) (q k : string) (d : entry_data) (s : Q)
    (H : _search_knowledge_base queries kb = Ok rs)
    (Hq : In q queries) (Hin : In (k, d) kb)
    (Hs : _calculate_relevance q k d = Ok s) (Hpos : (0 < s)%Q) :
  exists r,
    In r rs /\ key r = k /\ (NoDup (map fst kb) -> data r = d).
Proof.
  destruct (scan_queries_inv_end kb queries [] [] [] rs) as (seen & Hinv);
    [constructor; cbn; try tauto; try constructor|exact H|].
  cbn [app] in Hinv. destruct Hinv as [Hseen Hnd Hres Hun].
  destruct (in_dec string_dec k seen) as [Hk | Hk].
  - apply Hseen, in_map_iff in Hk. destruct Hk as (r & Hkr & Hr).
    exists r. split; [exact Hr|]. split; [exact Hkr|].
    intros Hkeys. destruct (Hres r Hr) as (i & _ & Hkb & _).
    rewrite Hkr in Hkb. clear - Hkeys Hkb Hin.
    induction kb as [|[k0 d0] kb IH]; [contradiction|].
    cbn in Hkeys. inversion Hkeys as [|? ? Hnot Hrest]; subst.
    destruct Hkb as [E1 | Hkb], Hin as [E2 | Hin].
    + congruence.
    + inversion E1; subst. exfalso. apply Hnot.
      apply in_map_iff. now exists (k, d).
    + inversion E2; subst. exfalso. apply Hnot.
      apply in_map_iff. now exists (k, data r).
    + now apply IH.
  - exfalso. destruct (Hun k d q Hin Hk Hq) as (s' & Hs' & Hz).
    rewrite Hs in Hs'. inversion Hs'; subst s'.
    apply Qltb_lt in Hpos. congruence.
Qed.

Lemma matcher_complete_witness :
  exists r,
    In r two_variants_results /\ key r = "aphids" /\
    (NoDup (map fst bare_aphids) -> data r = Dict []).
Proof.
  refine (matcher_complete two_variants bare_aphids two_variants_results
            "aphids" "aphids" (Dict []) bare_aphids_score _ _ _ _ _).
  - reflexivity.
  - right. now left.
  - now left.
  - reflexivity.
  - reflexivity.
Defined.

(** ** What [search] returns *)

Section Outcome.

Lemma boost_ranked_from (prefix : string) (r r' : SearchResult) :
  boost prefix r = Ok r' -> ranked_from r r'.
Proof.
  unfold boost, ranked_from. destruct (data r) as [fields | v] eqn:E;
    [|discriminate].
  destruct (value_eq_str _ _); intros H; inversion H; subst; cbn; auto.
Qed.

Lemma boost_all_ranked_from (prefix : string) (l : list SearchResult) :
  forall l', boost_all prefix l = Ok l' -> Forall2 ranked_from l l'.
Proof.
  induction l as [|r l IH]; intros l' H; cbn in H.
  - inversion H. constructor.
  - destruct (boost prefix r) as [r' | e] eqn:E; cbn in H; [|discriminate].
    destruct (boost_all prefix l) as [l'' | e]; cbn in H; [|discriminate].
    inversion H; subst. constructor; [now apply (boost_ranked_from prefix)|].
    now apply IH.
Qed.

Lemma ranked_from_refl (l : list SearchResult) : Forall2 ranked_from l l.
Proof. induction l; constructor; [unfold ranked_from; auto|assumption]. Qed.

Lemma Forall2_keys (l l' : list SearchResult) :
  Forall2 ranked_from l l' -> map key l' = map key l.
Proof.
  induction 1 as [|r r' l l' (Hk & _) _ IH]; cbn; [reflexivity|].
  now rewrite Hk, IH.
Qed.

Lemma Forall2_In_r (l l' : list SearchResult) (r' : SearchResult) :
  Forall2 ranked_from l l' -> In r' l' -> exists r, In r l /\ ranked_from r r'.
Proof.
  induction 1 as [|r0 r0' l l' H0 _ IH]; intros Hin; [contradiction|].
  destruct Hin as [<- | Hin]; [exists r0; split; [now left|exact H0]|].
  destruct (IH Hin) as (r & Hr & H). exists r. split; [now right|exact H].
Qed.

(** The ranker returns the matches, boosted or not, by descending score. *)
Lemma rank_results_spec (results : list SearchResult) (q : string)
    (intent : Intent) (ranked : list SearchResult) :
  _rank_results results q intent = Ok ranked ->
  descending ranked /\
  Permutation (map key ranked) (map key results) /\
  forall r', In r' ranked -> exists r, In r results /\ ranked_from r r'.
Proof.
  unfold _rank_results. intros H.
  assert (M : exists mid,
             Forall2 ranked_from (sorted_desc results) mid /\
             ranked = sorted_desc mid).
  { destruct (String.eqb (intent_type intent) "general").
    - cbn in H. inversion H. exists (sorted_desc results).
      split; [apply ranked_from_refl|reflexivity].
    - destruct (boost_all _ (sorted_desc results)) as [mid | e] eqn:E;
        cbn in H; [|discriminate].
      inversion H. exists mid. split; [|reflexivity].
      now apply boost_all_ranked_from in E. }
  destruct M as (mid & HF & ->). split; [apply sorted_desc_sorted|]. split.
  - rewrite (Permutation_map key (sorted_desc_perm mid)).
    rewrite (Forall2_keys _ _ HF).
    apply Permutation_map, sorted_desc_perm.
  - intros r' Hr'.
    apply (Permutation_in _ (sorted_desc_perm mid)) in Hr'.
    destruct (Forall2_In_r _ _ r' HF Hr') as (r & Hr & H').
    exists r. split; [|exact H'].
    now apply (Permutation_in _ (sorted_desc_perm results)).
Qed.

Lemma search_returns (self : Engine) (q : string) (kb : KnowledgeBase)
    (context : option Context) (o : Outcome) :
  fst (search self q kb context) = Ok o ->
  exists rs ranked,
    _search_knowledge_base (_expand_query (_preprocess_query q)) kb = Ok rs /\
    _rank_results rs (_preprocess_query q) (_extract_intent (_preprocess_query q))
    = Ok ranked /\
    o_results o = firstn 10 ranked /\
    o_total_results o = List.length ranked /\
    _generate_suggestions q ranked = Ok (o_suggestions o).
Proof.
  unfold search, ranked_results.
  destruct (_search_knowledge_base _ kb) as [rs | e] eqn:M; cbn [bind fst];
    [|discriminate].
  destruct (_rank_results rs _ _) as [ranked0 | e] eqn:R; cbn [bind fst];
    [|discriminate].
  set (ranked := match context with
                 | Some (_ :: _ as c) => _apply_context ranked0 c
                 | _ => ranked0
                 end).
  assert (E : ranked = ranked0) by (unfold ranked; now destruct context as [[|]|]).
  clearbody ranked. subst ranked.
  destruct (_generate_suggestions q ranked0) as [sg | e] eqn:G; cbn [fst];
    [|discriminate].
  intros H. injection H as <-.
  cbn [o_results o_total_results o_suggestions]. exists rs, ranked0.
  split; [reflexivity|]. split; [exact R|]. split; [reflexivity|].
  split; [reflexivity|exact G].
Qed.

Lemma firstn_sorted (n : nat) (l : list SearchResult) :
  descending l -> descending (firstn n l).
Proof.
  unfold descending. intros H. revert n.
  induction H as [|r l Hl IH Hr]; intros [|n]; cbn; try constructor.
  - apply IH.
  - rewrite Forall_forall in *. intros x Hx. apply Hr.
    rewrite <- (firstn_skipn n l). apply in_or_app. now left.
Qed.

Lemma firstn_NoDup {A : Type} (n : nat) (l : list A) :
  NoDup l -> NoDup (firstn n l).
Proof.
  intros H. rewrite <- (firstn_skipn n l) in H.
  now apply NoDup_app_remove_r in H.
Qed.

Lemma firstn_In {A : Type} (n : nat) (l : list A) (x : A) :
  In x (firstn n l) -> In x l.
Proof.
  intros H. rewrite <- (firstn_skipn n l). apply in_or_app. now left.
Qed.

End Outcome.

(** X4.  When [search] returns, it lists at most 10 results, the first of
    all the matches by descending score: no key occurs twice, every score is
    positive, and every result is an entry of the mapping matched against
    one of the variants of the normalized query. *)
Theorem search_outcome_shape (self : Engine) (q : string) (kb : KnowledgeBase)
    (context : option Context) (o : Outcome)
    (H : fst (search self q kb context) = Ok o) :
  List.length (o_results o) = Nat.min 10 (o_total_results o) /\
  NoDup (map key (o_results o)) /\
  descending (o_results o) /\
  forall r, In r (o_results o) ->
    (0 < score r)%Q /\ In (key r, data r) kb /\
    In (matched_query r) (_expand_query (_preprocess_query q)).
Proof.
  destruct (search_returns self q kb context o H)
    as (rs & ranked & Hm & Hr & -> & -> & _).
  destruct (scan_queries_inv kb (_expand_query (_preprocess_query q)) [] [] [] rs)
    as [Hnd Hfirst];
    [constructor; cbn; try tauto; try constructor|exact Hm|].
  cbn [app] in Hfirst.
  destruct (rank_results_spec rs _ _ ranked Hr) as (Hdesc & Hperm & Hfrom).
  split; [apply length_firstn|]. split.
  - rewrite <- firstn_map. apply firstn_NoDup.
    apply (Permutation_NoDup (Permutation_sym Hperm) Hnd).
  - split; [now apply firstn_sorted|].
    intros r' Hr'. apply firstn_In in Hr'.
    destruct (Hfrom r' Hr') as (r & Hin & Hk & Hd & Hq & Hs).
    destruct (Hfirst r Hin) as (i & Hi & Hkb & _ & Hpos & _).
    rewrite Hk, Hd, Hq. split; [|split; [exact Hkb|]].
    + destruct Hs as [-> | ->]; [exact Hpos|].
      apply Qmult_lt_0_compat; [exact Hpos|reflexivity].
    + eapply nth_error_In. exact Hi.
Qed.

Lemma search_outcome_shape_witness :
  exists o,
    fst (search new_engine aphids_query aphids_kb None) = Ok o /\
    List.length (o_results o) = Nat.min 10 (o_total_results o) /\
    NoDup (map key (o_results o)).
Proof.
  destruct (fst (search new_engine aphids_query aphids_kb None)) as [o | e] eqn:E;
    [|vm_compute in E; discriminate E].
  exists o. split; [reflexivity|].
  destruct (search_outcome_shape new_engine aphids_query aphids_kb None o E)
    as (H1 & H2 & _).
  now split.
Defined.

(** ** When [search] raises *)

Section Raises.

Lemma boost_all_raises (prefix : string) (l : list SearchResult) (e : exn) :
  boost_all prefix l = Raise e ->
  e = AttributeError /\ exists r v, In r l /\ data r = NotDict v.
Proof.
  induction l as [|r l IH]; cbn; [discriminate|].
  unfold boost at 1. destruct (data r) as [fields | v] eqn:E.
  - destruct (value_eq_str _ _); cbn;
      (destruct (boost_all prefix l) as [l' | e'] eqn:B; cbn; [discriminate|]);
      intros H; inversion H; subst e';
      destruct (IH eq_refl) as (He & r0 & v & Hin & Hd);
      (split; [exact He|]); exists r0, v; (split; [now right|exact Hd]).
  - cbn. intros H. inversion H. split; [reflexivity|].
    exists r, v. split; [now left|exact E].
Qed.

Lemma rank_results_raises (results : list SearchResult) (q : string)
    (intent : Intent) (e : exn) :
  _rank_results results q intent = Raise e ->
  e = AttributeError /\ intent_type intent <> "general" /\
  exists r v, In r results /\ data r = NotDict v.
Proof.
  unfold _rank_results. destruct (String.eqb_spec (intent_type intent) "general")
    as [_ | Hne]; cbn; [discriminate|].
  destruct (boost_all _ (sorted_desc results)) as [l | e'] eqn:B; cbn;
    [discriminate|].
  intros H. inversion H; subst e'.
  destruct (boost_all_raises _ _ _ B) as (He & r & v & Hin & Hd).
  split; [exact He|]. split; [exact Hne|]. exists r, v. split; [|exact Hd].
  now apply (Permutation_in _ (sorted_desc_perm results)).
Qed.

Lemma scan_entries_raises (q : string) (entries : KnowledgeBase) (e : exn) :
  forall results seen,
    scan_entries q entries results seen = Raise e ->
    exists k d, In (k, d) entries /\ _calculate_relevance q k d = Raise e.
Proof.
  induction entries as [|[k d] entries IH]; intros results seen H; cbn in H;
    [discriminate|].
  assert (T : forall results' seen',
             scan_entries q entries results' seen' = Raise e ->
             exists k0 d0, In (k0, d0) ((k, d) :: entries) /\
                           _calculate_relevance q k0 d0 = Raise e).
  { intros results' seen' H'. destruct (IH _ _ H') as (k0 & d0 & Hin & Hr).
    exists k0, d0. split; [now right|exact Hr]. }
  destruct (PyStr.mem k seen); [now apply (T results seen)|].
  destruct (_calculate_relevance q k d) as [s | e'] eqn:R; cbn in H.
  - destruct (Qltb 0 s); eapply T; exact H.
  - inversion H; subst e'. exists k, d. split; [now left|exact R].
Qed.

Lemma scan_queries_raises (kb : KnowledgeBase) (queries : list string) (e : exn) :
  forall results seen,
    scan_queries queries kb results seen = Raise e ->
    exists q k d,
      In q queries /\ In (k, d) kb /\ _calculate_relevance q k d = Raise e.
Proof.
  induction queries as [|q queries IH]; intros results seen H; cbn in H;
    [discriminate|].
  destruct (scan_entries q kb results seen) as [[results' seen'] | e'] eqn:E;
    cbn in H.
  - destruct (IH _ _ H) as (q0 & k & d & Hq & Hin & Hr).
    exists q0, k, d. split; [now right|]. now split.
  - inversion H; subst e'.
    destruct (scan_entries_raises q kb e _ _ E) as (k & d & Hin & Hr).
    exists q, k, d. split; [now left|]. now split.
Qed.

(** An entry that was scored without exception gives its suggestions
    without exception: its crops were iterated over, so they are a list or
    a string. *)
Lemma scored_suggestions (q : string) (r : SearchResult) (s : Q) :
  _calculate_relevance q (key r) (data r) = Ok s ->
  exists sg, suggestions_of r = Ok sg.
Proof.
  unfold _calculate_relevance, suggestions_of.
  destruct (data r) as [fields | v]; [|now exists []].
  unfold crops_score. destruct (lookup "crops" fields) as [crops|];
    [|intros _; cbn; eexists; reflexivity].
  destruct crops as [[|z|t] | l]; cbn; try discriminate; intros _;
    eexists; reflexivity.
Qed.

Lemma collect_suggestions_ok (l : list SearchResult) :
  (forall r, In r l -> exists sg, suggestions_of r = Ok sg) ->
  exists sg, collect_suggestions l = Ok sg.
Proof.
  induction l as [|r l IH]; intros H; cbn; [now exists []|].
  destruct (H r) as (sg & ->); [now left|]. cbn.
  destruct IH as (rest & ->); [intros r0 H0; apply H; now right|]. cbn.
  eexists. reflexivity.
Qed.

End Raises.

(** X5.  [search] raises only for a malformed mapping: either the scoring of
    an entry against a variant of the normalized query raises that
    exception, or the exception is [AttributeError], the topic is not
    ["general"] and the data of an entry is not a [dict].  Once the matches
    are ranked, the suggestions never raise. *)
Theorem search_raises_only (self : Engine) (q : string) (kb : KnowledgeBase)
    (context : option Context) (e : exn)
    (H : fst (search self q kb context) = Raise e) :
  (exists variant k d,
      In variant (_expand_query (_preprocess_query q)) /\ In (k, d) kb /\
      _calculate_relevance variant k d = Raise e) \/
  (e = AttributeError /\
   intent_type (_extract_intent (_preprocess_query q)) <> "general" /\
   exists k v, In (k, NotDict v) kb).
Proof.
  unfold search, ranked_results in H.
  destruct (_search_knowledge_base _ kb) as [rs | e'] eqn:M; cbn [bind fst] in H.
  - destruct (scan_queries_inv kb (_expand_query (_preprocess_query q)) [] [] [] rs)
      as [_ Hfirst]; [constructor; cbn; try tauto; try constructor|exact M|].
    cbn [app] in Hfirst.
    destruct (_rank_results rs _ _) as [ranked0 | e'] eqn:R; cbn [bind fst] in H.
    + exfalso.
      set (ranked := match context with
                     | Some (_ :: _ as c) => _apply_context ranked0 c
                     | _ => ranked0
                     end) in H.
      assert (E : ranked = ranked0)
        by (unfold ranked; now destruct context as [[|]|]).
      clearbody ranked. subst ranked.
      destruct (rank_results_spec rs _ _ ranked0 R) as (_ & _ & Hfrom).
      assert (G : exists sg, _generate_suggestions q ranked0 = Ok sg).
      { unfold _generate_suggestions.
        destruct (collect_suggestions_ok (firstn 5 ranked0)) as (sg & ->);
          [|cbn; eexists; reflexivity].
        intros r' Hr'. apply firstn_In in Hr'.
        destruct (Hfrom r' Hr') as (r & Hin & Hk & Hd & _).
        destruct (Hfirst r Hin) as (i & _ & _ & Hs & _).
        apply (scored_suggestions (matched_query r) r' (score r)).
        now rewrite Hk, Hd. }
      destruct G as (sg & G). rewrite G in H. discriminate H.
    + right. inversion H; subst e'.
      destruct (rank_results_raises _ _ _ _ R) as (He & Hne & r & v & Hin & Hd).
      split; [exact He|]. split; [exact Hne|].
      destruct (Hfirst r Hin) as (i & _ & Hkb & _).
      rewrite Hd in Hkb. now exists (key r), v.
  - left. inversion H; subst e'.
    destruct (scan_queries_raises kb _ e [] [] M) as (variant & k & d & Hq & Hin & Hr).
    now exists variant, k, d.
Qed.

Lemma search_raises_only_witness :
  (exists variant k d,
      In variant (_expand_query (_preprocess_query "aphids")) /\
      In (k, d) [("aphids", aphids_entry); ("leaf spot", number_in_crops)] /\
      _calculate_relevance variant k d = Raise TypeError) \/
  (TypeError = AttributeError /\
   intent_type (_extract_intent (_preprocess_query "aphids")) <> "general" /\
   exists k v, In (k, NotDict v)
                 [("aphids", aphids_entry); ("leaf spot", number_in_crops)]).
Proof.
  apply (search_raises_only new_engine "aphids"
           [("aphids", aphids_entry); ("leaf spot", number_in_crops)] None TypeError).
  reflexivity.
Defined.

(** X6.  The context passed to [search] changes nothing: the outcome and
    the engine are the ones of the call without context. *)
Theorem search_ignores_context (self : Engine) (q : string) (kb : KnowledgeBase)
    (context : option Context) :
  search self q kb context = search self q kb None.
Proof.
  assert (E : ranked_results q kb context = ranked_results q kb None).
  { unfold ranked_results.
    destruct (_search_knowledge_base _ kb) as [rs | e]; cbn [bind]; [|reflexivity].
    destruct (_rank_results rs _ _) as [ranked | e]; cbn [bind]; [|reflexivity].
    now destruct context as [[|]|]. }
  unfold search. now rewrite E.
Qed.

(** ** The suggestions *)

Section Suggestions.

Lemma Ok_inj {A : Type} (x y : A) : Ok x = Ok y -> x = y.
Proof. intros H. congruence. Qed.

Lemma dedup_In (x : string) (l : list string) : In x (PyStr.dedup l) <-> In x l.
Proof.
  induction l as [|y l IH]; cbn; [tauto|].
  rewrite filter_In, IH, negb_true_iff, String.eqb_neq.
  destruct (string_dec y x) as [-> | Hne]; tauto.
Qed.

Lemma dedup_NoDup (l : list string) : NoDup (PyStr.dedup l).
Proof.
  induction l as [|y l IH]; cbn; constructor.
  - rewrite filter_In, negb_true_iff, String.eqb_neq. tauto.
  - now apply NoDup_filter.
Qed.

Lemma collect_suggestions_In (l : list SearchResult) :
  forall sg s,
    collect_suggestions l = Ok sg -> In s sg ->
    exists r sr, In r l /\ suggestions_of r = Ok sr /\ In s sr.
Proof.
  induction l as [|r l IH]; intros sg s H Hs; cbn in H.
  - inversion H; subst. contradiction.
  - destruct (suggestions_of r) as [sr | e] eqn:E; cbn in H; [|discriminate].
    destruct (collect_suggestions l) as [rest | e]; cbn in H; [|discriminate].
    inversion H; subst. apply in_app_or in Hs. destruct Hs as [Hs | Hs].
    + exists r, sr. split; [now left|]. now split.
    + destruct (IH rest s eq_refl Hs) as (r0 & sr0 & Hin & H0 & Hs0).
      exists r0, sr0. split; [now right|]. now split.
Qed.

Lemma suggestions_of_form (r : SearchResult) (sr : list string) (s : string) :
  suggestions_of r = Ok sr -> In s sr ->
  s = ("How to prevent " ++ key r ++ "?")%string \/
  exists crop, s = ("How to manage " ++ key r ++ " in " ++ crop ++ "?")%string.
Proof.
  unfold suggestions_of. destruct (data r) as [fields | v];
    [|intros H; inversion H; subst; contradiction].
  destruct (match lookup "crops" fields with
            | Some crops =>
                first_two <- value_take 2 crops ;;
                items <- iterate first_two ;;
                Ok (map (fun crop =>
                           ("How to manage " ++ key r ++ " in "
                            ++ scalar_str crop ++ "?")%string) items)
            | None => Ok []
            end) as [manage | e] eqn:E; cbn [bind]; [|discriminate].
  intros H Hs. inversion H; subst sr. apply in_app_or in Hs.
  destruct Hs as [Hs | Hs].
  - right. destruct (lookup "crops" fields) as [crops|];
      [|inversion E; subst; contradiction].
    destruct (value_take 2 crops) as [first_two | e]; cbn in E; [|discriminate].
    destruct (iterate first_two) as [items | e]; cbn in E; [|discriminate].
    inversion E; subst manage. apply in_map_iff in Hs.
    destruct Hs as (crop & <- & _). now exists (scalar_str crop).
  - left. destruct (lookup "prevention" fields) as [prevention|]; [|contradiction].
    destruct (truthy prevention); [|contradiction].
    destruct Hs as [<- | []]. reflexivity.
Qed.

End Suggestions.

(** X7.  [_generate_suggestions] gives at most 5 suggestions, all different,
    and each of them is a question about the key of one of the first five
    results: how to prevent it, or how to manage it in some crop. *)
Theorem suggestions_shape (q : string) (results : list SearchResult)
    (sg : list string)
    (H : _generate_suggestions q results = Ok sg) :
  List.length sg <= 5 /\ NoDup sg /\
  forall s, In s sg ->
    exists r, In r (firstn 5 results) /\
      (s = ("How to prevent " ++ key r ++ "?")%string \/
       exists crop, s = ("How to manage " ++ key r ++ " in " ++ crop ++ "?")%string).
Proof.
  unfold _generate_suggestions in H.
  destruct (collect_suggestions (firstn 5 results)) as [all | e] eqn:E;
    cbn [bind] in H; [|discriminate].
  apply Ok_inj in H. subst sg. split; [apply firstn_le_length|]. split.
  - apply firstn_NoDup, dedup_NoDup.
  - intros s Hs. apply firstn_In in Hs. apply (proj1 (dedup_In s all)) in Hs.
    destruct (collect_suggestions_In _ _ s E Hs) as (r & sr & Hin & Hsr & Hs').
    exists r. split; [exact Hin|]. exact (suggestions_of_form r sr s Hsr Hs').
Qed.

Lemma suggestions_shape_witness :
  List.length ["How to manage aphids in mustard?"; "How to manage aphids in wheat?"]
  <= 5 /\
  NoDup ["How to manage aphids in mustard?"; "How to manage aphids in wheat?"].
Proof.
  destruct (suggestions_shape "q" [mkResult "aphids" aphids_entry 1 "q"]
              ["How to manage aphids in mustard?"; "How to manage aphids in wheat?"]
              eq_refl) as (H1 & H2 & _).
  now split.
Defined.

(** ** The counters of [get_search_stats] *)

Section Counters.

Lemma last_n_length_min {A : Type} (n : nat) (l : list A) :
  List.length (last_n n l) = Nat.min n (List.length l).
Proof. unfold last_n. rewrite length_skipn. lia. Qed.

Lemma search_total (self : Engine) (q : string) (kb : KnowledgeBase)
    (context : option Context) :
  total_searches (snd (search self q kb context)) = S (total_searches self).
Proof.
  unfold search. destruct (ranked_results q kb context) as [ranked | e];
    [|reflexivity].
  now destruct (_generate_suggestions q ranked).
Qed.

Lemma run_searches_counters (calls : list Call) :
  forall self,
    List.length (search_history self) <= 100 ->
    total_searches (run_searches self calls)
    = total_searches self + List.length calls /\
    List.length (search_history (run_searches self calls))
    = Nat.min 100 (List.length (search_history self)
                   + List.length (filter ranks calls)).
Proof.
  induction calls as [|[[q kb] context] calls IH]; intros self Hlen.
  - cbn [run_searches fold_left filter List.length]. split; lia.
  - cbn [run_searches fold_left fst snd].
    change (fold_left _ calls ?st) with (run_searches st calls).
    destruct (IH (snd (search self q kb context))) as [Ht Hh];
      [now apply search_history_bounded|].
    rewrite Ht, Hh, search_total, search_history_after.
    cbn [filter List.length]. unfold ranks at 2. cbn [fst snd].
    destruct (ranked_results q kb context) as [ranked | e].
    + rewrite last_n_length_min, length_app. cbn [List.length]. split; lia.
    + split; lia.
Qed.

End Counters.

(** X8.  After any sequence of calls of [search] on a new engine,
    [total_searches] is the number of calls, those that raised included,
    and [recent_searches] is the number of calls that reached the history
    update, capped at 100. *)
Theorem search_stats_counters (calls : list Call) :
  let stats := get_search_stats (run_searches new_engine calls) in
  stat_total_searches stats = List.length calls /\
  stat_recent_searches stats = Nat.min 100 (List.length (filter ranks calls)) /\
  stat_recent_searches stats <= stat_total_searches stats.
Proof.
  cbn zeta. unfold get_search_stats.
  cbn [stat_total_searches stat_recent_searches].
  destruct (run_searches_counters calls new_engine) as [Ht Hh]; [cbn; lia|].
  rewrite Ht, Hh. cbn [new_engine total_searches search_history List.length].
  pose proof (filter_length_le ranks calls). repeat split; lia.
Qed.

(** ** [get_trending_queries] *)

Section Trending.

Lemma count_of_increment (q q' : string) (counts : list (string * nat)) :
  count_of q (increment q' counts)
  = count_of q counts + (if String.eqb q' q then 1 else 0).
Proof.
  unfold count_of. induction counts as [|[k n] counts IH]; cbn.
  - destruct (String.eqb q' q); reflexivity.
  - destruct (String.eqb_spec k q') as [-> | Hne]; cbn.
    + destruct (String.eqb q' q); lia.
    + destruct (String.eqb_spec k q) as [-> | Hkq].
      * apply String.eqb_neq in Hne. rewrite String.eqb_sym, Hne. lia.
      * exact IH.
Qed.

Lemma keys_increment (q k : string) (counts : list (string * nat)) :
  In k (map fst (increment q counts)) <-> k = q \/ In k (map fst counts).
Proof.
  induction counts as [|[k' n] counts IH]; cbn; [intuition congruence|].
  destruct (String.eqb_spec k' q) as [-> | Hne]; cbn.
  - intuition congruence.
  - rewrite IH. intuition congruence.
Qed.

Lemma NoDup_increment (q : string) (counts : list (string * nat)) :
  NoDup (map fst counts) -> NoDup (map fst (increment q counts)).
Proof.
  induction counts as [|[k n] counts IH]; cbn; intros H.
  - repeat constructor. intros [].
  - inversion H as [|? ? Hk Hrest]; subst.
    destruct (String.eqb_spec k q) as [-> | Hne]; cbn; [now constructor|].
    constructor; [|now apply IH].
    rewrite keys_increment. intros [-> | Hin]; [congruence|contradiction].
Qed.

Lemma count_queries_spec (window : list HistoryEntry) :
  forall counts,
    NoDup (map fst counts) ->
    NoDup (map fst (fold_left (fun c e => increment (h_query e) c) window counts)) /\
    (forall q,
        count_of q (fold_left (fun c e => increment (h_query e) c) window counts)
        = count_of q counts + occurrences q window) /\
    (forall q,
        In q (map fst (fold_left (fun c e => increment (h_query e) c) window counts))
        <-> In q (map fst counts) \/ In q (map h_query window)).
Proof.
  induction window as [|e window IH]; intros counts H; cbn [fold_left].
  - split; [exact H|]. split; [intros q; unfold occurrences; cbn; lia|].
    intros q. cbn. tauto.
  - destruct (IH (increment (h_query e) counts) (NoDup_increment _ _ H))
      as (Hnd & Hc & Hk).
    split; [exact Hnd|]. split.
    + intros q. rewrite Hc, count_of_increment. unfold occurrences. cbn [filter].
      destruct (String.eqb (h_query e) q); cbn [List.length]; lia.
    + intros q. rewrite Hk, keys_increment. cbn. intuition congruence.
Qed.

Lemma In_count_of (q : string) (n : nat) (counts : list (string * nat)) :
  NoDup (map fst counts) -> In (q, n) counts -> count_of q counts = n.
Proof.
  unfold count_of. induction counts as [|[k m] counts IH]; cbn; intros H Hin;
    [contradiction|].
  inversion H as [|? ? Hk Hrest]; subst.
  destruct Hin as [E | Hin].
  - inversion E; subst. now rewrite String.eqb_refl.
  - destruct (String.eqb_spec k q) as [-> | _]; [|now apply IH].
    exfalso. apply Hk. apply in_map_iff. now exists (q, n).
Qed.

Lemma insert_count_perm (x : string * nat) (l : list (string * nat)) :
  Permutation (insert_count x l) (x :: l).
Proof.
  induction l as [|y l IH]; cbn; [reflexivity|].
  destruct (snd y <=? snd x); [reflexivity|].
  rewrite IH. apply perm_swap.
Qed.

Lemma sorted_counts_perm (l : list (string * nat)) :
  Permutation (sorted_counts l) l.
Proof.
  induction l as [|x l IH]; cbn; [reflexivity|].
  rewrite insert_count_perm. now constructor.
Qed.

Lemma insert_count_sorted (x : string * nat) (l : list (string * nat)) :
  StronglySorted (fun x y => snd y <= snd x) l ->
  StronglySorted (fun x y => snd y <= snd x) (insert_count x l).
Proof.
  induction 1 as [|y l Hl IH Hy]; cbn; [repeat constructor|].
  destruct (Nat.leb_spec (snd y) (snd x)) as [Hle | Hlt].
  - constructor; [now constructor|]. constructor; [exact Hle|].
    eapply Forall_impl; [|exact Hy]. cbn. intros z Hz. lia.
  - constructor; [exact IH|].
    apply (Permutation_Forall (Permutation_sym (insert_count_perm x l))).
    constructor; [lia|exact Hy].
Qed.

Lemma sorted_counts_sorted (l : list (string * nat)) :
  StronglySorted (fun x y => snd y <= snd x) (sorted_counts l).
Proof.
  induction l as [|x l IH]; cbn; [constructor|].
  now apply insert_count_sorted.
Qed.

Lemma sorted_app_le {A : Type} (R : A -> A -> Prop) (l1 l2 : list A) :
  StronglySorted R (l1 ++ l2) ->
  forall x y, In x l1 -> In y l2 -> R x y.
Proof.
  induction l1 as [|a l1 IH]; cbn; intros H x y Hx Hy; [contradiction|].
  inversion H as [|? ? Hs Hall]; subst. destruct Hx as [<- | Hx].
  - rewrite Forall_forall in Hall. apply Hall, in_or_app. now right.
  - now apply IH.
Qed.

Lemma sorted_firstn {A : Type} (R : A -> A -> Prop) (n : nat) (l : list A) :
  StronglySorted R l -> StronglySorted R (firstn n l).
Proof.
  intros H. revert n. induction H as [|a l Hl IH Ha]; intros [|n]; cbn;
    try constructor.
  - apply IH.
  - rewrite Forall_forall in *. intros x Hx. apply Ha. now apply firstn_In in Hx.
Qed.

Lemma sorted_map {A B : Type} (R : A -> A -> Prop) (R' : B -> B -> Prop)
    (f : A -> B) (l : list A) :
  (forall x y, In x l -> In y l -> R x y -> R' (f x) (f y)) ->
  StronglySorted R l -> StronglySorted R' (map f l).
Proof.
  intros Hf H. induction H as [|a l Hl IH Ha]; cbn; constructor.
  - apply IH. intros x y Hx Hy. apply Hf; now right.
  - rewrite Forall_forall in *. intros b Hb. apply in_map_iff in Hb.
    destruct Hb as (x & <- & Hx). apply Hf; [now left|now right|now apply Ha].
Qed.

End Trending.

(** X9.  [get_trending_queries] returns at most 10 queries, all different
    and all taken from the last 50 entries of the history, most frequent
    first; a query of those entries is left out only when 10 queries are
    returned, none of them less frequent than it. *)
Theorem trending_queries_spec (self : Engine) :
  let window := last_n 50 (search_history self) in
  let trending := get_trending_queries self in
  List.length trending <= 10 /\
  NoDup trending /\
  (forall q, In q trending -> In q (map h_query window)) /\
  StronglySorted (fun q q' => occurrences q' window <= occurrences q window)
    trending /\
  (forall q', In q' (map h_query window) -> ~ In q' trending ->
     List.length trending = 10 /\
     forall q, In q trending -> occurrences q' window <= occurrences q window).
Proof.
  cbn zeta. unfold get_trending_queries.
  set (window := last_n 50 (search_history self)).
  destruct (count_queries_spec window []) as (Hnd & Hc & Hk); [constructor|].
  fold (count_queries window) in Hnd, Hc, Hk.
  set (counts := count_queries window) in *.
  pose proof (sorted_counts_perm counts) as Hperm.
  pose proof (sorted_counts_sorted counts) as Hsorted.
  set (sorted := sorted_counts counts) in *.
  assert (Hocc : forall q n, In (q, n) sorted -> n = occurrences q window).
  { intros q n Hin. apply (Permutation_in _ Hperm) in Hin.
    rewrite <- (In_count_of q n counts Hnd Hin), Hc. reflexivity. }
  assert (Hnd' : NoDup (map fst sorted)).
  { apply (Permutation_NoDup (Permutation_sym (Permutation_map fst Hperm)) Hnd). }
  split; [rewrite length_map; apply firstn_le_length|].
  split; [rewrite <- firstn_map; now apply firstn_NoDup|].
  split.
  { intros q Hq. apply in_map_iff in Hq. destruct Hq as ([q0 n] & <- & Hin).
    apply firstn_In in Hin. apply (Permutation_in _ Hperm) in Hin.
    destruct (Hk q0) as [Hk1 _]. destruct Hk1 as [[] | H]; [|exact H].
    apply in_map_iff. now exists (q0, n). }
  split.
  { apply (sorted_map (fun x y => snd y <= snd x)); [|now apply sorted_firstn].
    intros [q n] [q' n'] Hx Hy Hle. cbn [fst snd] in *.
    apply firstn_In in Hx. apply firstn_In in Hy.
    now rewrite <- (Hocc q n Hx), <- (Hocc q' n' Hy). }
  intros q' Hq' Hout.
  assert (Hin : exists n', In (q', n') sorted).
  { destruct (Hk q') as [_ Hk2].
    specialize (Hk2 (or_intror Hq')). apply in_map_iff in Hk2.
    destruct Hk2 as ([q0 n'] & E & Hin). cbn in E. subst q0.
    exists n'. now apply (Permutation_in _ (Permutation_sym Hperm)). }
  destruct Hin as (n' & Hin).
  assert (Hrest : In (q', n') (skipn 10 sorted)).
  { rewrite <- (firstn_skipn 10 sorted) in Hin. apply in_app_or in Hin.
    destruct Hin as [Hin | Hin]; [|exact Hin].
    exfalso. apply Hout. apply in_map_iff. now exists (q', n'). }
  split.
  - rewrite length_map, length_firstn.
    assert (10 < List.length sorted); [|lia].
    destruct (Nat.le_gt_cases (List.length sorted) 10) as [Hle | Hgt]; [|exact Hgt].
    rewrite skipn_all2 in Hrest by exact Hle. contradiction.
  - intros q Hq. apply in_map_iff in Hq. destruct Hq as ([q0 n] & E & Hq).
    cbn in E. subst q0.
    rewrite <- (firstn_skipn 10 sorted) in Hsorted.
    pose proof (sorted_app_le _ _ _ Hsorted (q, n) (q', n') Hq Hrest) as Hle.
    cbn in Hle. apply firstn_In in Hq.
    now rewrite <- (Hocc q n Hq), <- (Hocc q' n' Hin).
Qed.

(** ** The conversation log *)

Section Conversation.

Lemma update_conversation_last_n (self : ChatAI) (message response : string)
    (session_id : option string) :
  conversation_history (_update_conversation self message response session_id)
  = last_n 50
      (conversation_history self
       ++ [mkConversation session_id message response (clock (search_engine self))]).
Proof.
  unfold _update_conversation. cbn [conversation_history].
  destruct (Nat.ltb_spec 50
              (List.length
                 (conversation_history self
                  ++ [mkConversation session_id message response
                        (clock (search_engine self))]))) as [H | H].
  - reflexivity.
  - now rewrite last_n_short.
Qed.

Lemma run_turns_history (turns : list Turn) :
  forall self,
    List.length (conversation_history self) <= 50 ->
    map turn_of (conversation_history (run_turns self turns))
    = last_n 50 (map turn_of (conversation_history self) ++ turns).
Proof.
  induction turns as [|[[m r] sid] turns IH]; intros self Hlen.
  - cbn. rewrite app_nil_r, last_n_short; [reflexivity|now rewrite length_map].
  - cbn [run_turns fold_left fst snd].
    change (fold_left _ turns ?st) with (run_turns st turns).
    rewrite IH.
    + rewrite update_conversation_last_n, map_last_n, map_app, last_n_app,
        <- app_assoc. reflexivity.
    + rewrite update_conversation_last_n, last_n_length_min. lia.
Qed.

Lemma map_filter_turn (sid : option string) (l : list ConversationEntry) :
  map turn_of (filter (fun conv => session_eqb (c_session_id conv) sid) l)
  = filter (fun t => session_eqb (turn_session t) sid) (map turn_of l).
Proof.
  induction l as [|conv l IH]; cbn; [reflexivity|].
  unfold turn_session at 1. cbn [turn_of snd].
  destruct (session_eqb (c_session_id conv) sid); cbn; now rewrite IH.
Qed.

Lemma session_eqb_eq (a b : option string) : session_eqb a b = true <-> a = b.
Proof.
  destruct a as [x|], b as [y|]; cbn; try (split; congruence).
  rewrite String.eqb_eq. split; congruence.
Qed.

Lemma last_n_In {A : Type} (n : nat) (l : list A) (x : A) :
  In x (last_n n l) -> In x l.
Proof.
  unfold last_n. intros H. rewrite <- (firstn_skipn (List.length l - n) l).
  apply in_or_app. now right.
Qed.

Lemma new_chat_history (kb : KnowledgeBase) (turns : list Turn) :
  map turn_of (conversation_history (run_turns (new_chat kb) turns))
  = last_n 50 turns.
Proof. rewrite run_turns_history by (cbn; lia). reflexivity. Qed.

End Conversation.

(** X10.  The conversation log of a new chat holds the last 50 turns, in
    the order in which [_update_conversation] appended them, whatever their
    sessions. *)
Theorem conversation_bounded_fifo (kb : KnowledgeBase) (turns : list Turn) :
  map turn_of (conversation_history (run_turns (new_chat kb) turns))
  = last_n 50 turns /\
  List.length (conversation_history (run_turns (new_chat kb) turns))
  = Nat.min 50 (List.length turns).
Proof.
  pose proof (new_chat_history kb turns) as E.
  split; [exact E|].
  rewrite <- (length_map turn_of), E. apply last_n_length_min.
Qed.

(** X11.  [get_conversation_context] returns the last turns of the session
    that are still among the last 50 turns of the log, at most 10 of them
    and in their order; a turn of another session is never returned. *)
Theorem conversation_context_spec (kb : KnowledgeBase) (turns : list Turn)
    (session_id : option string) :
  let context := get_conversation_context (run_turns (new_chat kb) turns) session_id in
  map turn_of context
  = last_n 10
      (filter (fun t => session_eqb (turn_session t) session_id) (last_n 50 turns)) /\
  List.length context <= 10 /\
  forall conv, In conv context -> c_session_id conv = session_id.
Proof.
  cbn zeta. unfold get_conversation_context. split; [|split].
  - rewrite map_last_n, map_filter_turn.
    now rewrite (new_chat_history kb turns).
  - rewrite last_n_length_min. lia.
  - intros conv Hin. apply last_n_In, filter_In in Hin.
    now apply session_eqb_eq.
Qed.

(** ** The intent *)

Section IntentFacts.

Lemma scan_patterns_spec (t : string) (patterns : list Re.regex) (q : string)
    (intent : Intent) :
  scan_patterns t patterns q intent
  = if existsb (fun pattern => Re.search pattern q) patterns
    then mkIntent t (intent_action intent) (intent_subject intent) (9 # 10)
    else intent.
Proof.
  induction patterns as [|p patterns IH]; cbn; [reflexivity|].
  destruct (Re.search p q); [reflexivity|exact IH].
Qed.

(** The two loops with their [break]s stop at the first group that has a
    matching pattern. *)
Lemma scan_groups_spec (groups : list (string * list Re.regex)) (q : string)
    (intent : Intent) :
  Qltb 0 (intent_confidence intent) = false ->
  scan_groups groups q intent
  = match first_group groups q with
    | Some t => mkIntent t (intent_action intent) (intent_subject intent) (9 # 10)
    | None => intent
    end.
Proof.
  intros Hc. induction groups as [|[t patterns] groups IH]; cbn; [reflexivity|].
  rewrite scan_patterns_spec. unfold group_matches. cbn [snd fst].
  destruct (existsb _ patterns); [reflexivity|].
  rewrite Hc. exact IH.
Qed.

Lemma first_group_In (groups : list (string * list Re.regex)) (q t : string) :
  first_group groups q = Some t ->
  exists g, In g groups /\ fst g = t /\ group_matches q g = true.
Proof.
  induction groups as [|g groups IH]; cbn; [discriminate|].
  destruct (group_matches q g) eqn:E.
  - intros H. inversion H. exists g. auto.
  - intros H. destruct (IH H) as (g0 & Hin & Hg). exists g0. auto.
Qed.

Lemma first_verb_spec (verbs : list string) (q : string) :
  match first_verb verbs q with
  | Some verb => In verb verbs /\ PyStr.contains verb q = true
  | None => forall verb, In verb verbs -> PyStr.contains verb q = false
  end.
Proof.
  induction verbs as [|v verbs IH]; cbn; [intros verb []|].
  destruct (PyStr.contains v q) eqn:E; [auto|].
  destruct (first_verb verbs q) as [verb|].
  - destruct IH. auto.
  - intros verb [<- | H]; auto.
Qed.

Lemma extract_intent_spec (q : string) :
  _extract_intent q
  = mkIntent
      (match first_group query_patterns q with Some t => t | None => "general" end)
      (first_verb action_verbs q) None
      (match first_group query_patterns q with
       | Some _ => (9 # 10)%Q
       | None => 0%Q
       end).
Proof.
  unfold _extract_intent. rewrite scan_groups_spec by reflexivity.
  destruct (first_group query_patterns q); destruct (first_verb action_verbs q);
    reflexivity.
Qed.

End IntentFacts.

(** X12.  The topic of [_extract_intent] is the label of the first group of
    patterns, in the order of the table, one of whose patterns is found in
    the query, and ["general"] when there is none; the confidence is 0.9 in
    the first case and 0 in the second, and the subject is always [None]. *)
Theorem intent_first_group (q : string) :
  let intent := _extract_intent q in
  intent_subject intent = None /\
  match first_group query_patterns q with
  | Some t =>
      intent_type intent = t /\ intent_confidence intent = (9 # 10)%Q /\
      In t ["pest_control"; "disease_management"; "fertilizer";
            "crop_management"; "government_schemes"]
  | None => intent_type intent = "general" /\ intent_confidence intent = 0%Q
  end.
Proof.
  cbn zeta. rewrite extract_intent_spec. cbn [intent_subject intent_type
    intent_confidence]. split; [reflexivity|].
  destruct (first_group query_patterns q) as [t|] eqn:E; [|now split].
  split; [reflexivity|]. split; [reflexivity|].
  destruct (first_group_In _ _ _ E) as (g & Hin & <- & _).
  unfold query_patterns in Hin. cbn [In] in Hin.
  repeat (destruct Hin as [<- | Hin]; [cbn; tauto|]). contradiction.
Qed.

(** X13.  The action of [_extract_intent] is the first verb of the list that
    occurs in the query as a substring, whatever the topic: a query that
    holds one of the verbs anywhere, inside a longer word too, gets an
    action, and a query that holds none gets [None]. *)
Theorem intent_action_substring (q : string) :
  (forall verb pre post,
      In verb action_verbs -> q = (pre ++ verb ++ post)%string ->
      exists found,
        intent_action (_extract_intent q) = Some found /\
        In found action_verbs /\ PyStr.contains found q = true) /\
  ((forall verb, In verb action_verbs -> PyStr.contains verb q = false) ->
   intent_action (_extract_intent q) = None).
Proof.
  rewrite extract_intent_spec. cbn [intent_action].
  pose proof (first_verb_spec action_verbs q) as H. split.
  - intros verb pre post Hin Hq.
    assert (Hc : PyStr.contains verb q = true)
      by (apply contains_iff; now exists pre, post).
    destruct (first_verb action_verbs q) as [found|].
    + exists found. destruct H. auto.
    + rewrite (H verb Hin) in Hc. discriminate.
  - intros Hnone. destruct (first_verb action_verbs q) as [found|];
      [|reflexivity].
    destruct H as [Hin Hc]. rewrite (Hnone found Hin) in Hc. discriminate.
Qed.

Lemma intent_action_substring_witness :
  exists found,
    intent_action (_extract_intent "is it useful") = Some found /\
    In found action_verbs /\ PyStr.contains found "is it useful" = true.
Proof.
  apply (proj1 (intent_action_substring "is it useful") "use" "is it " "ful").
  - cbn. tauto.
  - reflexivity.
Defined.

(** ** The variants of a query *)

Lemma synonyms_four (word : string) (syns : list string) :
  lookup word synonyms = Some syns -> List.length syns = 4.
Proof.
  unfold synonyms. cbn [lookup].
  repeat match goal with
         | |- (if ?b then _ else _) = _ -> _ =>
             destruct b; [intros H; inversion H; reflexivity|]
         end.
  discriminate.
Qed.

(** X14.  [_expand_query] lists the query first, then four variants for
    each word of the query, repeated words included, that has an entry in
    the synonym table; each variant is the query with a word replaced by one
    of its synonyms, and a query without such a word has no variant. *)
Theorem expand_query_variants (q : string) :
  hd "" (_expand_query q) = q /\
  List.length (_expand_query q)
  = 1 + 4 * List.length (filter has_synonyms (PyStr.split q)) /\
  (forall variant, In variant (_expand_query q) ->
     variant = q \/
     exists word syns synonym,
       In word (PyStr.split q) /\ lookup word synonyms = Some syns /\
       In synonym syns /\ variant = PyStr.replace word synonym q) /\
  (forallb (fun word => negb (has_synonyms word)) (PyStr.split q) = true ->
   _expand_query q = [q]).
Proof.
  unfold _expand_query. split; [reflexivity|].
  set (f := fun word =>
              match lookup word synonyms with
              | Some syns => map (fun synonym => PyStr.replace word synonym q) syns
              | None => []
              end).
  split; [|split].
  - assert (L : forall ws,
               List.length (flat_map f ws)
               = 4 * List.length (filter has_synonyms ws)).
    { induction ws as [|w ws IH]; cbn [flat_map filter]; [reflexivity|].
      rewrite length_app, IH. unfold f at 1, has_synonyms.
      destruct (lookup w synonyms) as [syns|] eqn:E; cbn [List.length]; [|lia].
      rewrite length_map, (synonyms_four w syns E). lia. }
    cbn [List.length]. rewrite L. lia.
  - intros variant [<- | Hin]; [now left|]. right.
    apply in_flat_map in Hin. destruct Hin as (word & Hw & Hv). unfold f in Hv.
    destruct (lookup word synonyms) as [syns|] eqn:E; [|contradiction].
    apply in_map_iff in Hv. destruct Hv as (synonym & <- & Hs).
    now exists word, syns, synonym.
  - intros Hnone. f_equal.
    induction (PyStr.split q) as [|w ws IH]; cbn [flat_map]; [reflexivity|].
    cbn [forallb] in Hnone. apply andb_true_iff in Hnone.
    destruct Hnone as [Hw Hws]. rewrite (IH Hws), app_nil_r.
    unfold f, has_synonyms in *. now destruct (lookup w synonyms).
Qed.

Lemma expand_query_variants_witness :
  _expand_query "how to grow wheat" = ["how to grow wheat"].
Proof.
  apply (proj2 (proj2 (proj2 (expand_query_variants "how to grow wheat")))).
  reflexivity.
Defined.

(** ** The normal form of a query *)

Section NormalForm.







Lemma plain_char_facts (c : ascii) :
  plain_char c = true ->
  kept c = true /\ PyStr.is_upper c = false /\ PyStr.is_space c = false.
Proof.
  unfold plain_char. intros H. apply andb_true_iff in H. destruct H as [H H3].
  apply andb_true_iff in H. destruct H as [H1 H2].
  apply negb_true_iff in H2, H3. auto.
Qed.

Lemma clean_lower (s : string) :
  forall b, clean_from b s = true -> PyStr.lower s = s.
Proof.
  induction s as [|c s IH]; intros b H; cbn in *; [reflexivity|].
  destruct (Ascii.eqb_spec c " "%char) as [-> | _].
  - apply andb_true_iff in H. destruct H as [_ H]. now rewrite (IH _ H).
  - apply andb_true_iff in H. destruct H as [Hc H].
    apply plain_char_facts in Hc. destruct Hc as (_ & Hu & _).
    unfold PyStr.lower_char. now rewrite Hu, (IH _ H).
Qed.

Lemma clean_lstrip (s : string) : clean s = true -> PyStr.lstrip s = s.
Proof.
  destruct s as [|c s]; [reflexivity|]. cbn.
  destruct (Ascii.eqb_spec c " "%char) as [-> | _]; [discriminate|].
  intros H. apply andb_true_iff in H. destruct H as [Hc _].
  apply plain_char_facts in Hc. destruct Hc as (_ & _ & Hs). now rewrite Hs.
Qed.

Lemma clean_rstrip (s : string) :
  forall b, clean_from b s = true -> PyStr.rstrip s = s.
Proof.
  induction s as [|c s IH]; intros b H; [reflexivity|].
  cbn [clean_from] in H. cbn [PyStr.rstrip].
  destruct (Ascii.eqb_spec c " "%char) as [-> | _].
  - apply andb_true_iff in H. destruct H as [_ H]. rewrite (IH _ H).
    destruct s; [discriminate H|reflexivity].
  - apply andb_true_iff in H. destruct H as [Hc H].
    apply plain_char_facts in Hc. destruct Hc as (_ & _ & Hs).
    rewrite (IH _ H). destruct s; [now rewrite Hs|reflexivity].
Qed.

Lemma clean_collapse (s : string) :
  forall b in_run,
    clean_from b s = true -> (in_run = true -> b = true) ->
    collapse_whitespace in_run s = s.
Proof.
  induction s as [|c s IH]; intros b in_run H Hb; [reflexivity|].
  cbn [clean_from] in H. cbn [collapse_whitespace].
  destruct (Ascii.eqb_spec c " "%char) as [-> | _].
  - apply andb_true_iff in H. destruct H as [Hn H].
    apply negb_true_iff in Hn. subst b.
    destruct in_run; [specialize (Hb eq_refl); discriminate|].
    change (PyStr.is_space " "%char) with true. cbn iota.
    now rewrite (IH true true H).
  - apply andb_true_iff in H. destruct H as [Hc H].
    apply plain_char_facts in Hc. destruct Hc as (_ & _ & Hs). rewrite Hs.
    now rewrite (IH false false H).
Qed.

Lemma clean_remove (s : string) :
  forall b, clean_from b s = true -> remove_special s = s.
Proof.
  induction s as [|c s IH]; intros b H; [reflexivity|].
  cbn [clean_from] in H. cbn [remove_special].
  destruct (Ascii.eqb_spec c " "%char) as [-> | _].
  - apply andb_true_iff in H. destruct H as [_ H].
    change (kept " "%char) with true. cbn iota. now rewrite (IH _ H).
  - apply andb_true_iff in H. destruct H as [Hc H].
    apply plain_char_facts in Hc. destruct Hc as (Hk & _). rewrite Hk.
    now rewrite (IH _ H).
Qed.

End NormalForm.


(** X16.  A query in normal form is left as it is by [_preprocess_query]. *)
Theorem preprocess_clean (query : string) (H : clean query = true) :
  _preprocess_query query = query.
Proof.
  destruct query as [|c s] eqn:E; [reflexivity|]. rewrite <- E in *.
  assert (Hc : clean_from true query = true) by (subst query; exact H).
  unfold _preprocess_query, PyStr.strip.
  rewrite (clean_lower query true Hc), (clean_lstrip query H),
    (clean_rstrip query true Hc).
  rewrite (clean_collapse query true false Hc) by discriminate.
  exact (clean_remove query true Hc).
Qed.

Lemma preprocess_clean_witness :
  _preprocess_query "how to control aphids in mustard?"
  = "how to control aphids in mustard?".
Proof. apply preprocess_clean. reflexivity. Defined.

(** ** Letter case and surrounding whitespace *)

Section Padding.

Lemma lower_app (u v : string) :
  PyStr.lower (u ++ v) = (PyStr.lower u ++ PyStr.lower v)%string.
Proof. induction u as [|c u IH]; cbn; [reflexivity|now rewrite IH]. Qed.

Lemma lower_blank (p : string) : blank p = true -> PyStr.lower p = p.
Proof.
  unfold blank. induction p as [|c p IH]; cbn; intros H; [reflexivity|].
  apply andb_true_iff in H. destruct H as [Hc Hp].
  now rewrite (space_not_upper c Hc), (IH Hp).
Qed.

Lemma lstrip_blank_app (p s : string) :
  blank p = true -> PyStr.lstrip (p ++ s) = PyStr.lstrip s.
Proof.
  unfold blank. induction p as [|c p IH]; cbn; intros H; [reflexivity|].
  apply andb_true_iff in H. destruct H as [Hc Hp]. rewrite Hc. now apply IH.
Qed.

Lemma rstrip_blank (p : string) : blank p = true -> PyStr.rstrip p = "".
Proof.
  unfold blank. induction p as [|c p IH]; cbn; intros H; [reflexivity|].
  apply andb_true_iff in H. destruct H as [Hc Hp]. now rewrite (IH Hp), Hc.
Qed.

Lemma rstrip_app_blank (s p : string) :
  blank p = true -> PyStr.rstrip (s ++ p) = PyStr.rstrip s.
Proof.
  intros Hp. induction s as [|c s IH]; cbn [append PyStr.rstrip].
  - now apply rstrip_blank.
  - now rewrite IH.
Qed.

Lemma strip_app_blank (s p : string) :
  blank p = true -> PyStr.strip (s ++ p) = PyStr.strip s.
Proof.
  intros Hp. unfold PyStr.strip. induction s as [|c s IH]; cbn [append PyStr.lstrip].
  - rewrite <- (string_app_nil_r p), (lstrip_blank_app p "" Hp). reflexivity.
  - destruct (PyStr.is_space c); [exact IH|].
    change (String c (s ++ p)) with (String c s ++ p)%string.
    now apply rstrip_app_blank.
Qed.

Lemma preprocess_padding (pre q post : string) :
  blank pre = true -> blank post = true ->
  _preprocess_query (pre ++ q ++ post) = _preprocess_query q.
Proof.
  intros Hpre Hpost. unfold _preprocess_query. f_equal. f_equal.
  rewrite !lower_app, (lower_blank pre Hpre), (lower_blank post Hpost).
  unfold PyStr.strip at 1. rewrite (lstrip_blank_app pre _ Hpre).
  exact (strip_app_blank (PyStr.lower q) post Hpost).
Qed.

End Padding.

(** X17.  [search] looks at a query up to letter case and surrounding
    whitespace: two queries with the same lower-case form, one of them
    between two runs of whitespace, get the same ranked results, or raise
    the same exception, whatever the engines and the contexts. *)
Theorem search_ignores_case_and_padding (self self' : Engine)
    (pre q post q' : string) (kb : KnowledgeBase) (context context' : option Context)
    (Hcase : PyStr.lower q = PyStr.lower q')
    (Hpre : blank pre = true) (Hpost : blank post = true) :
  ranking (fst (search self (pre ++ q ++ post) kb context))
  = ranking (fst (search self' q' kb context')).
Proof.
  assert (P : _preprocess_query (pre ++ q ++ post) = _preprocess_query q')
    by (rewrite (preprocess_padding pre q post Hpre Hpost);
        unfold _preprocess_query; now rewrite Hcase).
  assert (R : ranked_results (pre ++ q ++ post) kb context
              = ranked_results q' kb context').
  { unfold ranked_results. rewrite P.
    destruct (_search_knowledge_base _ kb) as [rs | e]; cbn [bind]; [|reflexivity].
    destruct (_rank_results rs _ _) as [ranked | e]; cbn [bind]; [|reflexivity].
    now destruct context as [[|]|], context' as [[|]|]. }
  rewrite !search_ranking, R. reflexivity.
Qed.

Lemma search_ignores_case_and_padding_witness :
  ranking (fst (search new_engine ("  " ++ "APHIDS" ++ " ") aphids_kb None))
  = ranking (fst (search new_engine "aphids" aphids_kb None)).
Proof.
  apply (search_ignores_case_and_padding new_engine new_engine "  " "APHIDS" " "
           "aphids" aphids_kb None None); reflexivity.
Defined.

(** ** Ties in the ranking *)

Section Ties.

Variable v : Q.

Lemma insert_desc_ties (x : SearchResult) (l : list SearchResult) :
  with_score_of v (insert_desc x l) = with_score_of v (x :: l).
Proof.
  unfold with_score_of. induction l as [|y l IH]; cbn [insert_desc]; [reflexivity|].
  destruct (Qle_bool (score y) (score x)) eqn:E; [reflexivity|].
  cbn [filter] in *. rewrite IH.
  destruct (Qeq_bool (score x) v) eqn:Ex; [|reflexivity].
  destruct (Qeq_bool (score y) v) eqn:Ey; [|reflexivity].
  exfalso. apply Qeq_bool_iff in Ex, Ey.
  assert (Hle : (score y <= score x)%Q) by (rewrite Ex, Ey; apply Qle_refl).
  apply Qle_bool_iff in Hle. congruence.
Qed.

Lemma sorted_desc_ties (l : list SearchResult) :
  with_score_of v (sorted_desc l) = with_score_of v l.
Proof.
  induction l as [|x l IH]; cbn [sorted_desc fold_right]; [reflexivity|].
  fold (sorted_desc l). rewrite insert_desc_ties.
  unfold with_score_of in *. cbn [filter]. now rewrite IH.
Qed.

End Ties.

(** X18.  With the topic ["general"] the ranking is stable: the results that
    have the same score come in the order in which the matcher found
    them. *)
Theorem ranking_stable (results : list SearchResult) (q : string)
    (intent : Intent) (v : Q)
    (Htopic : intent_type intent = "general") :
  exists ranked,
    _rank_results results q intent = Ok ranked /\
    with_score_of v ranked = with_score_of v results.
Proof.
  unfold _rank_results. rewrite Htopic. cbn [String.eqb bind].
  eexists. split; [reflexivity|]. now rewrite !sorted_desc_ties.
Qed.

Lemma ranking_stable_witness :
  exists ranked,
    _rank_results [sample_disease; sample_pest] "spots"
      (mkIntent "general" None None 0) = Ok ranked /\
    with_score_of 10 ranked = with_score_of 10 [sample_disease; sample_pest].
Proof.
  apply (ranking_stable [sample_disease; sample_pest] "spots"
           (mkIntent "general" None None 0) 10).
  reflexivity.
Defined.

(** ** What a search leaves in the history *)

(** X19.  A call of [search] that returns appends one entry to the history:
    it holds the query as it was given, not its normalized form, the clock
    of the call and the total number of results; the search time of the
    outcome is the next tick. *)
Theorem search_records_raw_query (self : Engine) (q : string) (kb : KnowledgeBase)
    (context : option Context) (o : Outcome)
    (H : fst (search self q kb context) = Ok o) :
  o_query o = q /\
  o_search_time o = S (clock self) /\
  exists older,
    search_history (snd (search self q kb context))
    = older ++ [mkEntry q (clock self) (o_total_results o)] /\
    older = last_n 99 (search_history self).
Proof.
  unfold search in *.
  destruct (ranked_results q kb context) as [ranked | e]; [|discriminate H].
  destruct (_generate_suggestions q ranked) as [sg | e]; [|discriminate H].
  cbn [fst snd] in *. apply Ok_inj in H. subst o.
  cbn [o_query o_search_time o_total_results search_history
       _update_search_history clock total_searches].
  split; [reflexivity|]. split; [reflexivity|].
  exists (last_n 99 (search_history self)). split; [|reflexivity].
  set (e := mkEntry q (clock self) (List.length ranked)).
  set (h := search_history self).
  destruct (Nat.ltb_spec 100 (List.length (h ++ [e]))) as [Hlt | Hle].
  - unfold last_n. rewrite length_app in *. cbn [List.length] in *.
    rewrite skipn_app.
    replace (List.length h + 1 - 100) with (List.length h - 99) by lia.
    replace (List.length h - 99 - List.length h) with 0 by lia. reflexivity.
  - rewrite length_app in Hle. cbn [List.length] in Hle.
    rewrite last_n_short by lia. reflexivity.
Qed.

Lemma search_records_raw_query_witness :
  exists o,
    fst (search new_engine "  APHIDS " aphids_kb None) = Ok o /\
    o_query o = "  APHIDS ".
Proof.
  destruct (fst (search new_engine "  APHIDS " aphids_kb None)) as [o | e] eqn:E;
    [|vm_compute in E; discriminate E].
  exists o. split; [reflexivity|].
  exact (proj1 (search_records_raw_query new_engine "  APHIDS " aphids_kb None o E)).
Defined.
